(** * Barcode generator: symbology resolution, EAN13 check digit, PDF page fitting

    A shallow embedding of [src/extension.js].

    - The classifier: [computeEan13CheckDigit], [isValidEan13] and
      [resolveBarcodeType].  The calls [resolveBarcodeType] makes on
      [vscode.window] are logged in order, and the answer to the quick pick
      comes from a [User].
    - The page fitter: the statements of [exportPdfFromPngDataUrl] that place
      the image on the A4 page, on binary64 numbers as JavaScript computes
      them ([exportPdfFromPngDataUrl_layout]); [F2R] reads a binary64 value
      as the real number it stands for.
    - The command registered by [activate] ([generateFromSelection]), the
      escaping of the preview's text ([escapeHtml], [jsStringEscape]), the
      handler of the preview's messages ([onDidReceiveMessage]) and the first
      statement of [dataUrlToBytes].

    The definitions come first; the lemmas and the claims C1 to C10 follow,
    and then further properties of the code, X1 to X20. *)

From Stdlib Require Import String Ascii ZArith List Bool Lia.
From Stdlib Require Import Decimal DecimalString.
From Stdlib Require Import Floats.
From Stdlib Require Import Reals Lra Psatz.
Import ListNotations.

Set Warnings "-inexact-float".

Open Scope string_scope.

(** * Definitions *)

(** ** JavaScript values used by the classifier

    A string is its sequence of code units; the embedding keeps the code
    units below 256, one [ascii] each. *)

Module Js.

(** A Number holding an integer, or NaN.  Every Number of the check digit
    computation is an integer far below 2^53 (a sum of at most
    [27 * length] over a string), where binary64 arithmetic is exact. *)
Inductive Number : Type :=
| Num (z : Z)
| NaN.

Definition add (a b : Number) : Number :=
  match a, b with
  | Num x, Num y => Num (x + y)
  | _, _ => NaN
  end.

Definition sub (a b : Number) : Number :=
  match a, b with
  | Num x, Num y => Num (x - y)
  | _, _ => NaN
  end.

Definition mul (a b : Number) : Number :=
  match a, b with
  | Num x, Num y => Num (x * y)
  | _, _ => NaN
  end.

(** [a % b]: the remainder takes the sign of the dividend; a zero divisor
    gives NaN. *)
Definition rem (a b : Number) : Number :=
  match a, b with
  | Num x, Num y => if (y =? 0)%Z then NaN else Num (Z.rem x y)
  | _, _ => NaN
  end.

(** [a === b] on Numbers: NaN is equal to nothing. *)
Definition strict_eq (a b : Number) : bool :=
  match a, b with
  | Num x, Num y => (x =? y)%Z
  | _, _ => false
  end.

(** [\d] of a regular expression without the unicode flag: [0-9]. *)
Definition is_digit (c : ascii) : bool :=
  ((48 <=? nat_of_ascii c) && (nat_of_ascii c <=? 57))%nat.

(** White space and line terminators among the code units below 256. *)
Definition is_white_space (c : ascii) : bool :=
  let n := nat_of_ascii c in
  ((9 <=? n) && (n <=? 13) || (n =? 32) || (n =? 160))%nat.

(** [Number(s[i])]: the argument is one code unit of a string, or
    [undefined] when the index is out of range.  A digit converts to its
    value, a white space character to 0 (it is trimmed to the empty string),
    anything else and [undefined] to NaN. *)
Definition Number_of (ch : option ascii) : Number :=
  match ch with
  | Some c =>
      if is_digit c then Num (Z.of_nat (nat_of_ascii c) - 48)
      else if is_white_space c then Num 0
      else NaN
  | None => NaN
  end.

(** The string a Number contributes to a template literal: the decimal
    numeral of an integer (of magnitude below 10^21), or "NaN". *)
Definition to_string (a : Number) : string :=
  match a with
  | Num z => NilZero.string_of_int (Z.to_int z)
  | NaN => "NaN"
  end.

(** [s.slice(0, n)]. *)
Definition slice0 (n : nat) (s : string) : string := substring 0 n s.

(** [/^\d{n}$/.test(s)]: the whole of [s] is exactly [n] digits. *)
Fixpoint test_digits (n : nat) (s : string) : bool :=
  match n, s with
  | O, EmptyString => true
  | S n', String c s' => is_digit c && test_digits n' s'
  | _, _ => false
  end.

End Js.

Import Js.

(** ** EAN13 check digit *)

(** The [for] loop of [computeEan13CheckDigit]; [fuel] bounds the number of
    iterations, and [String.length base12] of it is enough. *)
Fixpoint for_i (fuel : nat) (base12 : string) (i : nat) (sum : Number) : Number :=
  match fuel with
  | O => sum
  | S fuel' =>
      if (i <? String.length base12)%nat then
        let digit := Number_of (get i base12) in
        let sum := add sum (if (i mod 2 =? 0)%nat then digit else mul digit (Num 3)) in
        for_i fuel' base12 (i + 1) sum
      else sum
  end.

Definition computeEan13CheckDigit (base12 : string) : Number :=
  let sum := for_i (String.length base12) base12 0 (Num 0) in
  let mod_ := rem sum (Num 10) in
  if strict_eq mod_ (Num 0) then Num 0 else sub (Num 10) mod_.

Definition isValidEan13 (full13 : string) : bool :=
  let expected := computeEan13CheckDigit (slice0 12 full13) in
  strict_eq (Number_of (get 12 full13)) expected.

(** ** Resolving the barcode type *)

Inductive BarcodeType : Type := ean13 | code128 | qrcode.

Record Decision : Type := mkDecision {
  type : BarcodeType;
  value : string;
  label : string
}.

Record QuickPickItem : Type := mkItem {
  item_label : string;
  item_type : BarcodeType
}.

(** The calls a function makes on [vscode.window]. *)
Inductive WindowCall : Type :=
| showInformationMessage (message : string)
| showErrorMessage (message : string)
| showQuickPick (items : list QuickPickItem) (title placeHolder : string).

(** The person in front of the quick pick: given the items, the index of the
    one picked, or [None] when the pick is dismissed. *)
Definition User : Type := list QuickPickItem -> option nat.

(** A computation that talks to the window: it reads the user's answers and
    logs its calls in order. *)
Definition Window (A : Type) : Type := User -> list WindowCall * A.

Definition ret {A} (a : A) : Window A := fun _ => ([], a).

Definition bind {A B} (m : Window A) (f : A -> Window B) : Window B :=
  fun user =>
    let (log1, a) := m user in
    let (log2, b) := f a user in
    ((log1 ++ log2)%list, b).

Notation "x <- m ;; k" := (bind m (fun x => k))
  (at level 61, m at next level, right associativity).
Notation "m ;;; k" := (bind m (fun _ => k))
  (at level 61, right associativity).

Definition window_showInformationMessage (message : string) : Window unit :=
  fun _ => ([showInformationMessage message], tt).

Definition window_showErrorMessage (message : string) : Window unit :=
  fun _ => ([showErrorMessage message], tt).

(** [await vscode.window.showQuickPick(items, options)]: one of the items, or
    [undefined]. *)
Definition window_showQuickPick (items : list QuickPickItem)
    (title placeHolder : string) : Window (option QuickPickItem) :=
  fun user =>
    ([showQuickPick items title placeHolder],
     match user items with
     | Some i => nth_error items i
     | None => None
     end).

Definition quickPickItems : list QuickPickItem :=
  [ mkItem "Code 128" code128; mkItem "QR Code" qrcode ].

Definition invalidMessage : string :=
  "Invalid EAN13: check digit parity is incorrect. Generation is not possible.".

(** [resolveBarcodeType]: [None] is the [null] it returns. *)
Definition resolveBarcodeType (value : string) : Window (option Decision) :=
  if test_digits 12 value then
    let completed := value ++ to_string (computeEan13CheckDigit value) in
    window_showInformationMessage
      ("EAN13 generated with check digit: " ++ completed) ;;;
    ret (Some (mkDecision ean13 completed "EAN13"))
  else if test_digits 13 value then
    if negb (isValidEan13 value) then
      window_showErrorMessage invalidMessage ;;;
      ret None
    else
      ret (Some (mkDecision ean13 value "EAN13"))
  else
    picked <- window_showQuickPick quickPickItems
                "Choose barcode format" "Selected content is not EAN13 numeric" ;;
    match picked with
    | None => ret None
    | Some p => ret (Some (mkDecision (item_type p) value (item_label p)))
    end.

(** *** Reading a run *)

(** What a run returned, and what it logged. *)
Definition returned {A} (r : list WindowCall * A) : A := snd r.
Definition calls {A} (r : list WindowCall * A) : list WindowCall := fst r.

Definition quickPickCall : WindowCall :=
  showQuickPick quickPickItems "Choose barcode format"
    "Selected content is not EAN13 numeric".

Definition is_error (c : WindowCall) : bool :=
  match c with showErrorMessage _ => true | _ => false end.

Definition is_quick_pick (c : WindowCall) : bool :=
  match c with showQuickPick _ _ _ => true | _ => false end.

(** The run was blocked with an error message and returned [null]. *)
Definition rejected (r : list WindowCall * option Decision) : bool :=
  existsb is_error (calls r) &&
  match returned r with None => true | Some _ => false end.

(** The run asked for a choice of symbology. *)
Definition ambiguous (r : list WindowCall * option Decision) : bool :=
  existsb is_quick_pick (calls r).

(** The run returned an EAN13 decision with neither question nor error. *)
Definition decided (r : list WindowCall * option Decision) : bool :=
  negb (existsb is_error (calls r)) && negb (existsb is_quick_pick (calls r)) &&
  match returned r with
  | Some (mkDecision ean13 _ _) => true
  | _ => false
  end.

(** Three users. *)
Definition always_first : User := fun _ => Some 0%nat.
Definition always_second : User := fun _ => Some 1%nat.
Definition dismisses : User := fun _ => None.

(** ** The check digit as the specification words it

    [checkDigit] follows the specification's formula over the twelve leading
    digits; it is compared with [computeEan13CheckDigit] below. *)

Definition digit (d : string) (i : nat) : Z :=
  match get i d with
  | Some c => (Z.of_nat (nat_of_ascii c) - 48)%Z
  | None => 0%Z
  end.

Definition weight (i : nat) : Z := if Nat.even i then 1%Z else 3%Z.

Definition checksum_sum (d : string) : Z :=
  fold_right Z.add 0%Z (map (fun i => (digit d i * weight i)%Z) (seq 0 12)).

Definition checkDigit (d : string) : Z :=
  let sum := checksum_sum d in
  if (sum mod 10 =? 0)%Z then 0%Z else (10 - sum mod 10)%Z.

(** A string of exactly [n] ASCII digits. *)
Definition ascii_digits (n : nat) (s : string) : Prop :=
  String.length s = n /\
  Forall (fun c => is_digit c = true) (list_ascii_of_string s).

(** The sum the loop adds up from position [i] on, over the characters that
    remain. *)
Fixpoint weighted_from (i : nat) (rest : string) : Z :=
  match rest with
  | EmptyString => 0%Z
  | String c rest' =>
      ((Z.of_nat (nat_of_ascii c) - 48) * weight i + weighted_from (i + 1) rest')%Z
  end.

(** ** Page fitting *)

(** *** [Math.min] on binary64 Numbers

    The ECMAScript algorithm: NaN if an argument is NaN; otherwise the
    arguments are folded from [+Infinity], and [-0] is below [+0]. *)
Module Math.

Definition min_step (lowest number : float) : float :=
  match classify number, classify lowest with
  | NZero, PZero => number
  | _, _ => if (number <? lowest)%float then number else lowest
  end.

Definition min (values : list float) : float :=
  if existsb is_nan values then nan else fold_left min_step values infinity.

End Math.

(** How a block of statements completes. *)
Inductive Completion (A : Type) : Type :=
| Normal (a : A)
| Throw (error : string).
Arguments Normal {A} a.
Arguments Throw {A} error.

(** The rectangle handed to [page.drawImage]. *)
Record PageLayout : Type := mkPageLayout {
  x : float;
  y : float;
  drawWidth : float;
  drawHeight : float
}.

Section PageFitter.

Local Open Scope float_scope.

Definition a4Width : float := 595.28.
Definition a4Height : float := 841.89.
Definition margin : float := 36.
Definition maxWidth : float := a4Width - margin * 2.
Definition maxHeight : float := a4Height - margin * 2.

(** [scale], from [pngImage.width] and [pngImage.height]. *)
Definition scale (width height : float) : float :=
  Math.min [maxWidth / width; maxHeight / height; 1].

(** The statements of [exportPdfFromPngDataUrl] from [a4Width] to the
    argument of [page.drawImage]: arithmetic on Numbers, of which no
    statement throws. *)
Definition exportPdfFromPngDataUrl_layout (width height : float)
  : Completion PageLayout :=
  let scale := scale width height in
  let drawWidth := width * scale in
  let drawHeight := height * scale in
  let x := (a4Width - drawWidth) / 2 in
  let y := (a4Height - drawHeight) / 2 in
  Normal (mkPageLayout x y drawWidth drawHeight).

(** [fit] as the specification words it, for any page and margin; it is
    compared with [exportPdfFromPngDataUrl_layout] below. *)
Definition fit (pageWidth pageHeight margin sourceWidth sourceHeight : float)
  : PageLayout :=
  let maxWidth := pageWidth - 2 * margin in
  let maxHeight := pageHeight - 2 * margin in
  let scale := Math.min [maxWidth / sourceWidth; maxHeight / sourceHeight; 1.0] in
  let drawWidth := sourceWidth * scale in
  let drawHeight := sourceHeight * scale in
  let x := (pageWidth - drawWidth) / 2 in
  let y := (pageHeight - drawHeight) / 2 in
  mkPageLayout x y drawWidth drawHeight.

(** [|a - b| <= tolerance], as a test asserts it. *)
Definition within (tolerance a b : float) : bool := abs (a - b) <=? tolerance.

(** The four fields within [tolerance] of the expected x, y, width, height. *)
Definition all_within (tolerance : float) (l : PageLayout)
    (ex ey ew eh : float) : bool :=
  within tolerance (drawWidth l) ew && within tolerance (drawHeight l) eh &&
  within tolerance (x l) ex && within tolerance (y l) ey.

End PageFitter.

(** *** Classes of binary64 values *)

(** Not NaN, and of sign [+]. *)
Definition sf_nonneg (v : spec_float) : bool :=
  match v with
  | S754_zero false | S754_finite false _ _ | S754_infinity false => true
  | _ => false
  end.

(** Above zero, [+Infinity] included. *)
Definition sf_pos (v : spec_float) : bool :=
  match v with
  | S754_finite false _ _ | S754_infinity false => true
  | _ => false
  end.

(** Zero or finite, of either sign. *)
Definition sf_finite (v : spec_float) : bool :=
  match v with
  | S754_zero _ | S754_finite _ _ _ => true
  | _ => false
  end.

Definition shr_nonneg (mrs : shr_record) : Prop := (0 <= shr_m mrs)%Z.

(** *** Binary64 values as real numbers *)

(** Powers of two. *)
Definition bpow (e : Z) : R := powerRZ 2 e.

(** The real number a binary64 value stands for (0 for infinities and NaN). *)
Definition F2R (f : float) : R :=
  match Prim2SF f with
  | S754_finite s m e => ((if s then -1 else 1) * (IZR (Z.pos m) * bpow e))%R
  | _ => 0%R
  end.

(** A positive normal number: mantissa [m] of 53 bits, exponent [e]. *)
Definition normal_pos (f : float) (m : positive) (e : Z) : Prop :=
  Prim2SF f = S754_finite false m e /\ Z.pos (digits2_pos m) = 53%Z.

(** ** The command *)

(** [s.trim()]: the white space and line terminators at both ends are
    removed. *)
Fixpoint trimStart (s : string) : string :=
  match s with
  | EmptyString => EmptyString
  | String c rest => if is_white_space c then trimStart rest else s
  end.

Fixpoint trimEnd (s : string) : string :=
  match s with
  | EmptyString => EmptyString
  | String c rest =>
      match trimEnd rest with
      | EmptyString => if is_white_space c then EmptyString else String c EmptyString
      | kept => String c kept
      end
  end.

Definition trim (s : string) : string := trimEnd (trimStart s).

(** The callback [activate] registers for the command.  [activeTextEditor]
    is [None] when there is no editor, and otherwise holds
    [editor.document.getText(editor.selection)].  The result is the decision
    handed to [openBarcodeWebview], or [None] when the callback returns
    without opening the preview. *)
Definition generateFromSelection (activeTextEditor : option string)
  : Window (option Decision) :=
  match activeTextEditor with
  | None =>
      window_showErrorMessage "No active editor found." ;;;
      ret None
  | Some selected =>
      let selectedText := trim selected in
      if (String.length selectedText =? 0)%nat then
        window_showErrorMessage "Please select text to generate a barcode." ;;;
        ret None
      else
        decision <- resolveBarcodeType selectedText ;;
        match decision with
        | None => ret None
        | Some d => ret (Some d)
        end
  end.

(** A character that [Number] converts to a number: a digit, or white
    space. *)
Definition numeric (c : ascii) : bool := is_digit c || is_white_space c.

(** A string of white space only. *)
Definition blank (s : string) : bool :=
  forallb is_white_space (list_ascii_of_string s).

(** ** Escaping for the preview's HTML and script *)

(** [value.replace(/c/g, replacement)] for a pattern of one character [c] and
    a replacement without [$]. *)
Fixpoint replace_all (c : ascii) (replacement value : string) : string :=
  match value with
  | EmptyString => EmptyString
  | String a rest =>
      if Ascii.eqb a c then replacement ++ replace_all c replacement rest
      else String a (replace_all c replacement rest)
  end.

Definition double_quote : ascii := "034"%char.
Definition line_feed : ascii := "010"%char.
Definition carriage_return : ascii := "013"%char.
Definition backslash : ascii := "092"%char.

Definition escapeHtml (value : string) : string :=
  replace_all "'" "&#39;"
    (replace_all double_quote "&quot;"
      (replace_all ">" "&gt;"
        (replace_all "<" "&lt;"
          (replace_all "&" "&amp;" value)))).

Definition jsStringEscape (value : string) : string :=
  replace_all carriage_return (String backslash "r")
    (replace_all line_feed (String backslash "n")
      (replace_all "'" (String backslash "'")
        (replace_all backslash (String backslash (String backslash "")) value))).

(** The string a [BarcodeType] is in the program. *)
Definition type_string (t : BarcodeType) : string :=
  match t with
  | ean13 => "ean13"
  | code128 => "code128"
  | qrcode => "qrcode"
  end.

(** *** Escaping in one pass

    What each character becomes when a string is escaped character by
    character; compared with the chains of [replace] below. *)

Fixpoint flat_map_string (f : ascii -> string) (s : string) : string :=
  match s with
  | EmptyString => EmptyString
  | String c rest => f c ++ flat_map_string f rest
  end.

Definition escapeHtml_char (c : ascii) : string :=
  if Ascii.eqb c "&" then "&amp;"
  else if Ascii.eqb c "<" then "&lt;"
  else if Ascii.eqb c ">" then "&gt;"
  else if Ascii.eqb c double_quote then "&quot;"
  else if Ascii.eqb c "'" then "&#39;"
  else String c "".

Definition jsStringEscape_char (c : ascii) : string :=
  if Ascii.eqb c backslash then String backslash (String backslash "")
  else if Ascii.eqb c "'" then String backslash "'"
  else if Ascii.eqb c line_feed then String backslash "n"
  else if Ascii.eqb c carriage_return then String backslash "r"
  else String c "".

(** A character [escapeHtml] replaces. *)
Definition html_special (c : ascii) : bool :=
  Ascii.eqb c "&" || Ascii.eqb c "<" || Ascii.eqb c ">" ||
  Ascii.eqb c double_quote || Ascii.eqb c "'".

(** A character [jsStringEscape] replaces. *)
Definition js_special (c : ascii) : bool :=
  Ascii.eqb c backslash || Ascii.eqb c "'" ||
  Ascii.eqb c line_feed || Ascii.eqb c carriage_return.

(** A character that opens or closes a tag or an attribute value. *)
Definition html_delimiter (c : ascii) : bool :=
  Ascii.eqb c "<" || Ascii.eqb c ">" || Ascii.eqb c double_quote || Ascii.eqb c "'".

(** A string with none of the [special] characters. *)
Definition plain (special : ascii -> bool) (s : string) : bool :=
  forallb (fun c => negb (special c)) (list_ascii_of_string s).

(** The names of the five character references [escapeHtml] writes, after
    their [&]. *)
Definition html_references : list string :=
  ["amp;"; "lt;"; "gt;"; "quot;"; "#39;"].


(** ** Messages from the preview *)

(** A value of a message's field, as far as the handler looks at it. *)
Inductive JsValue : Type :=
| js_undefined
| js_string (s : string)
| js_other.

(** A truthy message: its fields [type] and [dataUrl]. *)
Record Message : Type := mkMessage {
  message_type : JsValue;
  message_dataUrl : JsValue
}.

Definition pngDataUrlPrefix : string := "data:image/png;base64,".

(** [dataUrl.startsWith(prefix)]. *)
Definition startsWith (prefix_ s : string) : bool := prefix prefix_ s.

(** [v === s] for a string [s]. *)
Definition strict_eq_string (v : JsValue) (s : string) : bool :=
  match v with
  | js_string t => String.eqb t s
  | _ => false
  end.

(** The handler given to [panel.webview.onDidReceiveMessage]; a falsy message
    is [None].  The result is the argument of [exportPdfFromPngDataUrl] when
    the handler calls it. *)
Definition onDidReceiveMessage (message : option Message) : Window (option string) :=
  match message with
  | None => ret None
  | Some m =>
      if strict_eq_string (message_type m) "export-pdf" then
        match message_dataUrl m with
        | js_string dataUrl =>
            if negb (startsWith pngDataUrlPrefix dataUrl) then
              window_showErrorMessage "Unable to export PDF: invalid image data." ;;;
              ret None
            else ret (Some dataUrl)
        | _ =>
            window_showErrorMessage "Unable to export PDF: invalid image data." ;;;
            ret None
        end
      else ret None
  end.

(** [s.replace(/^prefix/, '')] for a literal prefix. *)
Fixpoint remove_prefix (prefix_ s : string) : option string :=
  match prefix_, s with
  | EmptyString, _ => Some s
  | String a p, String b rest => if Ascii.eqb a b then remove_prefix p rest else None
  | String _ _, EmptyString => None
  end.

(** The first statement of [dataUrlToBytes]: the text given to
    [Buffer.from(base64, 'base64')]. *)
Definition dataUrlToBytes_base64 (dataUrl : string) : string :=
  match remove_prefix pngDataUrlPrefix dataUrl with
  | Some base64 => base64
  | None => dataUrl
  end.

(** * Lemmas and claims *)

(** ** Runs of [resolveBarcodeType] on examples *)

Example resolve_12 :
  resolveBarcodeType "012345678905" dismisses
  = ([showInformationMessage "EAN13 generated with check digit: 0123456789050"],
     Some (mkDecision ean13 "0123456789050" "EAN13")).
Proof. reflexivity. Qed.

Example resolve_13_valid :
  resolveBarcodeType "4006381333931" dismisses
  = ([], Some (mkDecision ean13 "4006381333931" "EAN13")).
Proof. reflexivity. Qed.

Example resolve_13_invalid :
  resolveBarcodeType "4006381333932" always_first
  = ([showErrorMessage
        "Invalid EAN13: check digit parity is incorrect. Generation is not possible."],
     None).
Proof. reflexivity. Qed.

Example resolve_other :
  resolveBarcodeType "40063813339" always_second
  = ([showQuickPick quickPickItems "Choose barcode format"
        "Selected content is not EAN13 numeric"],
     Some (mkDecision qrcode "40063813339" "QR Code")).
Proof. reflexivity. Qed.

(** ** Strings *)

Section Strings.

Lemma test_digits_spec n s : test_digits n s = true <-> ascii_digits n s.
Proof.
  unfold ascii_digits. revert s.
  induction n as [|n IH]; intros [|c s]; simpl; split;
    try (intros [E _]; discriminate E); try discriminate; auto.
  - intros H. apply andb_true_iff in H as [Hc Hs].
    apply IH in Hs as [Hl Hf]. split; [congruence | now constructor].
  - intros [Hl Hf]. inversion Hf; subst.
    apply andb_true_iff. split; [assumption|].
    apply IH. split; [congruence | assumption].
Qed.

Lemma test_digits_length n s : test_digits n s = true -> String.length s = n.
Proof. intros H. now apply test_digits_spec in H as [H _]. Qed.

Lemma test_digits_other_length n m s :
  test_digits n s = true -> n <> m -> test_digits m s = false.
Proof.
  intros Hn Hne. destruct (test_digits m s) eqn:Hm; [|reflexivity].
  apply test_digits_length in Hn, Hm. congruence.
Qed.

Lemma test_digits_app n m s1 s2 :
  test_digits n s1 = true -> test_digits m s2 = true ->
  test_digits (n + m) (s1 ++ s2) = true.
Proof.
  revert s1. induction n as [|n IH]; intros [|c s1]; simpl; try discriminate.
  - auto.
  - intros H H2. apply andb_true_iff in H as [Hc Hs].
    rewrite Hc. simpl. now apply IH.
Qed.

Lemma length_append s1 s2 :
  String.length (s1 ++ s2) = (String.length s1 + String.length s2)%nat.
Proof. induction s1 as [|c s1 IH]; simpl; [reflexivity | now rewrite IH]. Qed.

Lemma append_assoc_one s1 c s2 :
  s1 ++ String c s2 = (s1 ++ String c "") ++ s2.
Proof. induction s1 as [|a s1 IH]; simpl; [reflexivity | now rewrite IH]. Qed.

Lemma get_append_here s1 s2 : get (String.length s1) (s1 ++ s2) = get 0 s2.
Proof. symmetry. apply (append_correct2 s1 s2 0). Qed.

Lemma slice0_append s1 s2 : slice0 (String.length s1) (s1 ++ s2) = s1.
Proof.
  unfold slice0. induction s1 as [|c s1 IH]; simpl.
  - now destruct s2.
  - now rewrite IH.
Qed.

End Strings.

(** ** The loop of [computeEan13CheckDigit] *)

Section CheckDigit.

Lemma is_digit_range c :
  is_digit c = true -> (0 <= Z.of_nat (nat_of_ascii c) - 48 <= 9)%Z.
Proof.
  unfold is_digit. intros H. apply andb_true_iff in H as [H1 H2].
  apply Nat.leb_le in H1, H2. lia.
Qed.

Lemma mod2_weight i (x : Z) :
  (if (i mod 2 =? 0)%nat then Num x else mul (Num x) (Num 3))
  = Num (x * weight i).
Proof.
  unfold weight. destruct (Nat.even i) eqn:E.
  - apply Nat.even_spec in E. destruct E as [k ->].
    rewrite Nat.mul_comm, Nat.Div0.mod_mul. simpl. f_equal. lia.
  - assert (O : Nat.odd i = true) by (unfold Nat.odd; now rewrite E).
    apply Nat.odd_spec in O. destruct O as [k ->].
    rewrite Nat.add_comm, Nat.mul_comm, Nat.Div0.mod_add. reflexivity.
Qed.

(** The loop, started at the end of [done] with [String.length rest]
    iterations left, adds the weighted digits of [rest]. *)
Lemma for_i_digits rest : forall done acc,
  Forall (fun c => is_digit c = true) (list_ascii_of_string rest) ->
  for_i (String.length rest) (done ++ rest) (String.length done) (Num acc)
  = Num (acc + weighted_from (String.length done) rest).
Proof.
  induction rest as [|c rest IH]; intros done acc Hd.
  - simpl. f_equal. lia.
  - inversion Hd as [|? ? Hc Hrest]; subst.
    cbn [String.length for_i weighted_from].
    rewrite length_append. cbn [String.length].
    replace (String.length done <? String.length done + S (String.length rest))%nat
      with true by (symmetry; apply Nat.ltb_lt; lia).
    rewrite get_append_here. cbn [get Number_of]. rewrite Hc.
    rewrite mod2_weight. cbn [add].
    rewrite append_assoc_one.
    replace (String.length done + 1)%nat with (String.length (done ++ String c ""))
      by (rewrite length_append; reflexivity).
    rewrite IH by assumption.
    f_equal. rewrite length_append. cbn [String.length]. lia.
Qed.

Lemma weighted_from_nonneg rest : forall i,
  Forall (fun c => is_digit c = true) (list_ascii_of_string rest) ->
  (0 <= weighted_from i rest)%Z.
Proof.
  induction rest as [|c rest IH]; intros i Hd; simpl; [lia|].
  inversion Hd as [|? ? Hc Hrest]; subst.
  specialize (IH (i + 1)%nat Hrest). apply is_digit_range in Hc.
  unfold weight. destruct (Nat.even i); lia.
Qed.

Lemma weighted_from_12 d :
  String.length d = 12%nat -> weighted_from 0 d = checksum_sum d.
Proof.
  intros H.
  do 13 (destruct d as [|? d]; try discriminate H).
  unfold checksum_sum, digit. simpl. reflexivity.
Qed.

(** On twelve digits the source's function computes the specification's
    check digit. *)
Lemma computeEan13CheckDigit_spec d :
  ascii_digits 12 d -> computeEan13CheckDigit d = Num (checkDigit d).
Proof.
  intros [Hl Hd]. unfold computeEan13CheckDigit, checkDigit.
  pose proof (for_i_digits d "" 0 Hd) as L. simpl in L. rewrite L.
  rewrite weighted_from_12 by assumption.
  pose proof (weighted_from_nonneg d 0 Hd) as N.
  rewrite weighted_from_12 in N by assumption.
  cbv zeta. unfold rem. simpl (10 =? 0)%Z. cbv iota.
  rewrite Z.rem_mod_nonneg by lia.
  unfold strict_eq. destruct (checksum_sum d mod 10 =? 0)%Z; reflexivity.
Qed.

Lemma checkDigit_range d : (0 <= checkDigit d <= 9)%Z.
Proof.
  unfold checkDigit. cbv zeta.
  pose proof (Z.mod_pos_bound (checksum_sum d) 10 ltac:(lia)).
  destruct (checksum_sum d mod 10 =? 0)%Z eqn:E; [lia|].
  apply Z.eqb_neq in E. lia.
Qed.

End CheckDigit.

(** ** Thirteen digits: twelve digits and a last one *)

Section Ean13.

Lemma test_digits_snoc n s :
  test_digits (S n) s = true ->
  exists d ch, s = d ++ String ch "" /\ test_digits n d = true /\ is_digit ch = true.
Proof.
  revert s. induction n as [|n IH]; intros [|c s] H; try discriminate H.
  - simpl in H. apply andb_true_iff in H as [Hc Hs].
    destruct s; [|discriminate Hs].
    exists "", c. auto.
  - cbn [test_digits] in H. apply andb_true_iff in H as [Hc Hs].
    destruct (IH s Hs) as (d & ch & -> & Hd & Hch).
    exists (String c d), ch. repeat split; [|assumption].
    cbn [test_digits]. now rewrite Hc.
Qed.

Lemma ascii_digits_snoc n s :
  ascii_digits (S n) s ->
  exists d ch, s = d ++ String ch "" /\ ascii_digits n d /\ is_digit ch = true.
Proof.
  intros H. apply test_digits_spec, test_digits_snoc in H.
  destruct H as (d & ch & E & Hd & Hc).
  exists d, ch. split; [assumption|]. split; [now apply test_digits_spec | assumption].
Qed.

Lemma ascii_digits_snoc_intro n d ch :
  ascii_digits n d -> is_digit ch = true -> ascii_digits (S n) (d ++ String ch "").
Proof.
  intros Hd Hc. apply test_digits_spec.
  replace (S n) with (n + 1)%nat by lia.
  apply test_digits_app; [now apply test_digits_spec|].
  simpl. now rewrite Hc.
Qed.

Lemma digit_last d ch :
  digit (d ++ String ch "") (String.length d) = (Z.of_nat (nat_of_ascii ch) - 48)%Z.
Proof. unfold digit. now rewrite get_append_here. Qed.

(** The decimal numeral of a digit is that digit's character. *)
Lemma to_string_digit c :
  (0 <= c <= 9)%Z ->
  exists ch, to_string (Num c) = String ch "" /\ is_digit ch = true /\
             (Z.of_nat (nat_of_ascii ch) - 48)%Z = c.
Proof.
  intros H.
  assert (c = 0 \/ c = 1 \/ c = 2 \/ c = 3 \/ c = 4 \/
          c = 5 \/ c = 6 \/ c = 7 \/ c = 8 \/ c = 9)%Z as D by lia.
  repeat (destruct D as [-> | D]); try subst c;
    eexists; repeat split; reflexivity.
Qed.

(** Validation of twelve digits followed by one more compares that digit
    with the check digit of the twelve. *)
Lemma isValidEan13_snoc d ch :
  ascii_digits 12 d -> is_digit ch = true ->
  isValidEan13 (d ++ String ch "")
  = (Z.of_nat (nat_of_ascii ch) - 48 =? checkDigit d)%Z.
Proof.
  intros Hd Hc. pose proof Hd as [Hl _].
  unfold isValidEan13. rewrite <- Hl at 1 2.
  rewrite slice0_append, get_append_here.
  rewrite computeEan13CheckDigit_spec by assumption.
  cbn [get Number_of]. rewrite Hc. reflexivity.
Qed.

End Ean13.

(** ** The three branches of [resolveBarcodeType] *)

Section Branches.

Variable user : User.

Lemma resolve_twelve v :
  ascii_digits 12 v ->
  resolveBarcodeType v user
  = ([showInformationMessage
        ("EAN13 generated with check digit: " ++ v ++ to_string (Num (checkDigit v)))],
     Some (mkDecision ean13 (v ++ to_string (Num (checkDigit v))) "EAN13")).
Proof.
  intros H. unfold resolveBarcodeType.
  rewrite (proj2 (test_digits_spec 12 v) H).
  rewrite computeEan13CheckDigit_spec by assumption. reflexivity.
Qed.

Lemma resolve_thirteen v :
  ascii_digits 13 v ->
  resolveBarcodeType v user
  = if isValidEan13 v
    then ([], Some (mkDecision ean13 v "EAN13"))
    else ([showErrorMessage invalidMessage], None).
Proof.
  intros H. apply test_digits_spec in H. unfold resolveBarcodeType.
  rewrite (test_digits_other_length 13 12 v H) by lia. rewrite H.
  destruct (isValidEan13 v); reflexivity.
Qed.

Lemma resolve_otherwise v :
  ~ ascii_digits 12 v -> ~ ascii_digits 13 v ->
  resolveBarcodeType v user
  = ([quickPickCall],
     match user quickPickItems with
     | Some 0%nat => Some (mkDecision code128 v "Code 128")
     | Some 1%nat => Some (mkDecision qrcode v "QR Code")
     | _ => None
     end).
Proof.
  intros H12 H13. unfold resolveBarcodeType.
  destruct (test_digits 12 v) eqn:E12;
    [exfalso; now apply H12, test_digits_spec|].
  destruct (test_digits 13 v) eqn:E13;
    [exfalso; now apply H13, test_digits_spec|].
  unfold bind, window_showQuickPick, quickPickCall.
  destruct (user quickPickItems) as [[|[|[|i]]]|]; reflexivity.
Qed.

End Branches.

Section Validation.

(** Validation of thirteen digits compares the thirteenth with the check
    digit of the first twelve. *)
Lemma isValidEan13_thirteen v :
  ascii_digits 13 v ->
  isValidEan13 v = (digit v 12 =? checkDigit (slice0 12 v))%Z.
Proof.
  intros H. destruct (ascii_digits_snoc 12 v H) as (d & ch & -> & Hd & Hc).
  pose proof Hd as [Hl _].
  rewrite isValidEan13_snoc by assumption.
  rewrite <- Hl. now rewrite digit_last, slice0_append.
Qed.

Lemma completed_thirteen d :
  ascii_digits 12 d ->
  ascii_digits 13 (d ++ to_string (Num (checkDigit d))) /\
  isValidEan13 (d ++ to_string (Num (checkDigit d))) = true.
Proof.
  intros Hd.
  destruct (to_string_digit (checkDigit d) (checkDigit_range d)) as (ch & E & Hc & V).
  rewrite E. split.
  - now apply ascii_digits_snoc_intro.
  - rewrite isValidEan13_snoc by assumption. rewrite V. apply Z.eqb_refl.
Qed.

End Validation.

(** ** The classifier's claims *)

(** C1.  Twelve ASCII digits are completed: the run returns the EAN13
    decision whose value is the input followed by the check digit of the
    specification's formula, after one information message and with no error,
    whatever the user would answer.  For "012345678905" the weighted sum is
    110, the check digit 0 and the value "0123456789050". *)
Theorem twelve_digits_completed :
  (forall (user : User) (v : string),
      ascii_digits 12 v ->
      computeEan13CheckDigit v = Num (checkDigit v) /\
      resolveBarcodeType v user
      = ([showInformationMessage
            ("EAN13 generated with check digit: " ++ v ++ to_string (Num (checkDigit v)))],
         Some (mkDecision ean13 (v ++ to_string (Num (checkDigit v))) "EAN13")))
  /\ checksum_sum "012345678905" = 110%Z
  /\ checkDigit "012345678905" = 0%Z
  /\ (forall user : User,
        returned (resolveBarcodeType "012345678905" user)
        = Some (mkDecision ean13 "0123456789050" "EAN13")).
Proof.
  split; [|repeat split].
  - intros user v H. split.
    + now apply computeEan13CheckDigit_spec.
    + now apply resolve_twelve.
Qed.

Lemma twelve_digits_completed_witness :
  ascii_digits 12 "400638133393" /\
  resolveBarcodeType "400638133393" dismisses
  = ([showInformationMessage "EAN13 generated with check digit: 4006381333931"],
     Some (mkDecision ean13 "4006381333931" "EAN13")).
Proof.
  split.
  - apply test_digits_spec. reflexivity.
  - apply (proj1 twelve_digits_completed dismisses "400638133393").
    apply test_digits_spec. reflexivity.
Defined.

(** C2.  Thirteen ASCII digits are validated: when the thirteenth digit is
    not the check digit of the first twelve the run shows the error message
    and returns null, with no quick pick offered; otherwise it returns the
    EAN13 decision with the value unchanged and calls nothing. *)
Theorem thirteen_digits_validated (user : User) (v : string) :
  ascii_digits 13 v ->
  (digit v 12 <> checkDigit (slice0 12 v) ->
   resolveBarcodeType v user = ([showErrorMessage invalidMessage], None)) /\
  (digit v 12 = checkDigit (slice0 12 v) ->
   resolveBarcodeType v user = ([], Some (mkDecision ean13 v "EAN13"))).
Proof.
  intros H. rewrite resolve_thirteen, isValidEan13_thirteen by assumption.
  split; intros E.
  - apply Z.eqb_neq in E. now rewrite E.
  - apply Z.eqb_eq in E. now rewrite E.
Qed.

Lemma thirteen_digits_validated_witness :
  ascii_digits 13 "4006381333932" /\
  (digit "4006381333932" 12 <> checkDigit (slice0 12 "4006381333932") ->
   resolveBarcodeType "4006381333932" always_first
   = ([showErrorMessage invalidMessage], None)) /\
  (digit "4006381333932" 12 = checkDigit (slice0 12 "4006381333932") ->
   resolveBarcodeType "4006381333932" always_first
   = ([], Some (mkDecision ean13 "4006381333932" "EAN13"))).
Proof.
  split.
  - apply test_digits_spec. reflexivity.
  - apply (thirteen_digits_validated always_first "4006381333932").
    apply test_digits_spec. reflexivity.
Defined.

(** C3.  Any other string is ambiguous: the run offers the quick pick between
    Code 128 and QR Code and nothing else, shows no error, and a decision it
    returns carries the input untouched with type code128 or qrcode, never
    ean13.  Every run is in exactly one of the three branches. *)
Theorem other_strings_ambiguous :
  (forall (user : User) (v : string),
      ~ ascii_digits 12 v -> ~ ascii_digits 13 v ->
      let r := resolveBarcodeType v user in
      calls r = [quickPickCall] /\
      ambiguous r = true /\ rejected r = false /\ decided r = false /\
      (forall d, returned r = Some d ->
                 value d = v /\ (type d = code128 \/ type d = qrcode))) /\
  (forall (user : User) (v : string),
      let r := resolveBarcodeType v user in
      (ascii_digits 12 v /\ decided r = true /\ rejected r = false /\ ambiguous r = false) \/
      (ascii_digits 13 v /\ ambiguous r = false /\
       ((decided r = true /\ rejected r = false) \/
        (decided r = false /\ rejected r = true))) \/
      (~ ascii_digits 12 v /\ ~ ascii_digits 13 v /\
       decided r = false /\ rejected r = false /\ ambiguous r = true)).
Proof.
  assert (forall user v, ~ ascii_digits 12 v -> ~ ascii_digits 13 v ->
            let r := resolveBarcodeType v user in
            calls r = [quickPickCall] /\
            ambiguous r = true /\ rejected r = false /\ decided r = false /\
            (forall d, returned r = Some d ->
                       value d = v /\ (type d = code128 \/ type d = qrcode))) as Other.
  { intros user v H12 H13. cbv zeta. rewrite resolve_otherwise by assumption.
    repeat split; try reflexivity;
      destruct (user quickPickItems) as [[|[|i]]|]; simpl in *;
        try discriminate; inversion H; subst; auto. }
  split; [exact Other|].
  intros user v. cbv zeta.
  destruct (test_digits 12 v) eqn:E12.
  - left. apply test_digits_spec in E12. rewrite resolve_twelve by assumption.
    repeat split; try reflexivity; apply E12.
  - destruct (test_digits 13 v) eqn:E13.
    + right; left. apply test_digits_spec in E13.
      rewrite resolve_thirteen by assumption.
      split; [assumption|]. split; [now destruct (isValidEan13 v)|].
      destruct (isValidEan13 v); [left | right]; split; reflexivity.
    + right; right.
      assert (~ ascii_digits 12 v) as H12
        by (intros H; apply test_digits_spec in H; congruence).
      assert (~ ascii_digits 13 v) as H13
        by (intros H; apply test_digits_spec in H; congruence).
      destruct (Other user v H12 H13) as (_ & A & R & D & _). auto.
Qed.

Lemma other_strings_ambiguous_witness :
  ~ ascii_digits 12 "12345678901" /\ ~ ascii_digits 13 "12345678901" /\
  calls (resolveBarcodeType "12345678901" always_second) = [quickPickCall] /\
  returned (resolveBarcodeType "12345678901" always_second)
  = Some (mkDecision qrcode "12345678901" "QR Code").
Proof.
  assert (~ ascii_digits 12 "12345678901") as H12
    by (intros H; apply test_digits_spec in H; discriminate H).
  assert (~ ascii_digits 13 "12345678901") as H13
    by (intros H; apply test_digits_spec in H; discriminate H).
  split; [exact H12|]. split; [exact H13|].
  split.
  - exact (proj1 (proj1 other_strings_ambiguous always_second "12345678901" H12 H13)).
  - reflexivity.
Defined.

(** C4.  Round trip: for twelve ASCII digits the run returns an EAN13 decision
    whose value is thirteen ASCII digits, and resolving that value again, with
    any user, returns the same decision. *)
Theorem completed_value_resolves_to_itself (user user' : User) (d : string) :
  ascii_digits 12 d ->
  exists dec,
    returned (resolveBarcodeType d user) = Some dec /\
    type dec = ean13 /\
    ascii_digits 13 (value dec) /\
    returned (resolveBarcodeType (value dec) user') = Some dec.
Proof.
  intros H. destruct (completed_thirteen d H) as [H13 V].
  exists (mkDecision ean13 (d ++ to_string (Num (checkDigit d))) "EAN13").
  rewrite resolve_twelve by assumption. cbn [value type].
  rewrite resolve_thirteen by assumption. rewrite V. auto.
Qed.

Lemma completed_value_resolves_to_itself_witness :
  ascii_digits 12 "012345678905" /\
  exists dec,
    returned (resolveBarcodeType "012345678905" dismisses) = Some dec /\
    type dec = ean13 /\
    ascii_digits 13 (value dec) /\
    returned (resolveBarcodeType (value dec) always_first) = Some dec.
Proof.
  assert (ascii_digits 12 "012345678905") as H
    by (apply test_digits_spec; reflexivity).
  split; [exact H|].
  exact (completed_value_resolves_to_itself dismisses always_first "012345678905" H).
Defined.

(** C5.  Every EAN13 decision a run returns, from the twelve-digit or the
    thirteen-digit branch, has a value of thirteen ASCII digits whose
    thirteenth digit is the check digit of the first twelve (and which
    [isValidEan13] accepts). *)
Theorem ean13_decision_invariant (user : User) (v : string) (d : Decision) :
  returned (resolveBarcodeType v user) = Some d ->
  type d = ean13 ->
  ascii_digits 13 (value d) /\
  digit (value d) 12 = checkDigit (slice0 12 (value d)) /\
  isValidEan13 (value d) = true.
Proof.
  intros R T.
  assert (forall w, ascii_digits 13 w -> isValidEan13 w = true ->
                    ascii_digits 13 w /\
                    digit w 12 = checkDigit (slice0 12 w) /\
                    isValidEan13 w = true) as Valid.
  { intros w H13 V. repeat split; try apply H13; try assumption.
    rewrite isValidEan13_thirteen in V by assumption. now apply Z.eqb_eq. }
  destruct (test_digits 12 v) eqn:E12.
  - apply test_digits_spec in E12. rewrite resolve_twelve in R by assumption.
    inversion R; subst d. cbn [value].
    now apply Valid; apply completed_thirteen.
  - destruct (test_digits 13 v) eqn:E13.
    + apply test_digits_spec in E13. rewrite resolve_thirteen in R by assumption.
      destruct (isValidEan13 v) eqn:V; [|discriminate R].
      inversion R; subst d. cbn [value]. now apply Valid.
    + assert (~ ascii_digits 12 v) as H12
        by (intros H; apply test_digits_spec in H; congruence).
      assert (~ ascii_digits 13 v) as H13
        by (intros H; apply test_digits_spec in H; congruence).
      rewrite resolve_otherwise in R by assumption. exfalso.
      destruct (user quickPickItems) as [[|[|i]]|]; simpl in R;
        try discriminate R; inversion R; subst d; discriminate T.
Qed.

Lemma ean13_decision_invariant_witness :
  ascii_digits 13 "4006381333931" /\
  digit "4006381333931" 12 = checkDigit (slice0 12 "4006381333931") /\
  isValidEan13 "4006381333931" = true.
Proof.
  exact (ean13_decision_invariant dismisses "400638133393"
           (mkDecision ean13 "4006381333931" "EAN13") eq_refl eq_refl).
Defined.

(** C10.  On twelve ASCII digits [computeEan13CheckDigit] is an integer from
    0 to 9, so the completed value has thirteen characters, and among the ten
    digits that can be appended it is the only one [isValidEan13] accepts. *)
Theorem check_digit_unique (d : string) :
  ascii_digits 12 d ->
  exists c : Z,
    computeEan13CheckDigit d = Num c /\
    (0 <= c <= 9)%Z /\
    String.length (d ++ to_string (computeEan13CheckDigit d)) = 13%nat /\
    forall c' : Z, (0 <= c' <= 9)%Z ->
      (isValidEan13 (d ++ to_string (Num c')) = true <-> c' = c).
Proof.
  intros H. exists (checkDigit d).
  rewrite computeEan13CheckDigit_spec by assumption.
  split; [reflexivity|]. split; [apply checkDigit_range|]. split.
  - destruct (completed_thirteen d H) as [[L _] _]. exact L.
  - intros c' R.
    destruct (to_string_digit c' R) as (ch & E & Hc & V).
    rewrite E, isValidEan13_snoc by assumption. rewrite V. apply Z.eqb_eq.
Qed.

Lemma check_digit_unique_witness :
  ascii_digits 12 "400638133393" /\
  exists c : Z,
    computeEan13CheckDigit "400638133393" = Num c /\
    (0 <= c <= 9)%Z /\
    String.length ("400638133393" ++ to_string (computeEan13CheckDigit "400638133393"))
    = 13%nat /\
    forall c' : Z, (0 <= c' <= 9)%Z ->
      (isValidEan13 ("400638133393" ++ to_string (Num c')) = true <-> c' = c).
Proof.
  assert (ascii_digits 12 "400638133393") as H
    by (apply test_digits_spec; reflexivity).
  split; [exact H|].
  exact (check_digit_unique "400638133393" H).
Defined.

(** ** Binary64 facts, from the specification of the primitive floats *)

Section Binary64.

Local Open Scope float_scope.

Lemma SFcompare_antisym a b c :
  SFcompare a b = Some c -> SFcompare b a = Some (CompOpp c).
Proof.
  destruct a as [sa|sa| |sa ma ea], b as [sb|sb| |sb mb eb]; simpl; intros E;
    try discriminate E; injection E as <-;
    try destruct sa; try destruct sb; try reflexivity;
    rewrite (Z.compare_antisym ea eb);
    replace (Pos.compare_cont Eq mb ma) with (CompOpp (Pos.compare_cont Eq ma mb))
      by apply (Pos.compare_cont_antisym ma mb Eq);
    destruct (ea ?= eb)%Z; simpl; try reflexivity;
    destruct (Pos.compare_cont Eq ma mb); reflexivity.
Qed.

Lemma positive_spec a : (0 <? a) = true -> sf_pos (Prim2SF a) = true.
Proof.
  rewrite FloatAxioms.ltb_spec. unfold SFltb.
  change (Prim2SF 0) with (S754_zero false).
  destruct (Prim2SF a) as [s|[|]| |[|] m e]; simpl; try discriminate; reflexivity.
Qed.

Lemma nonneg_not_nan a : sf_nonneg (Prim2SF a) = true -> is_nan a = false.
Proof.
  unfold is_nan. rewrite FloatAxioms.eqb_spec. unfold SFeqb.
  destruct (Prim2SF a) as [[|]|[|]| |[|] m e]; simpl; try discriminate; try reflexivity.
  intros _. now rewrite Z.compare_refl, Pos.compare_cont_refl.
Qed.

Lemma not_above_leb a b :
  sf_nonneg (Prim2SF a) = true -> sf_nonneg (Prim2SF b) = true ->
  (a <? b) = false -> (b <=? a) = true.
Proof.
  rewrite FloatAxioms.ltb_spec, FloatAxioms.leb_spec. unfold SFltb, SFleb. intros Ha Hb.
  destruct (SFcompare (Prim2SF a) (Prim2SF b)) as [c|] eqn:E.
  - rewrite (SFcompare_antisym _ _ _ E). now destruct c.
  - destruct (Prim2SF a) as [[|]|[|]| |[|] ? ?]; try discriminate Ha;
      destruct (Prim2SF b) as [[|]|[|]| |[|] ? ?]; try discriminate Hb;
        discriminate E.
Qed.

Lemma nonneg_leb_zero a : sf_nonneg (Prim2SF a) = true -> (0 <=? a) = true.
Proof.
  rewrite FloatAxioms.leb_spec. unfold SFleb. change (Prim2SF 0) with (S754_zero false).
  destruct (Prim2SF a) as [[|]|[|]| |[|] m e]; simpl; try discriminate; reflexivity.
Qed.

(** *** Rounding keeps the sign and never makes a NaN *)

Lemma shr_1_nonneg mrs : shr_nonneg mrs -> shr_nonneg (shr_1 mrs).
Proof.
  destruct mrs as [m r s]. unfold shr_nonneg. simpl.
  destruct m as [|[p|p|]|p]; simpl; lia.
Qed.

Lemma iter_pos_shr_1_nonneg p : forall mrs,
  shr_nonneg mrs -> shr_nonneg (SpecFloat.iter_pos shr_1 p mrs).
Proof.
  induction p as [p IH|p IH|]; intros mrs H; simpl.
  - apply IH, IH, shr_1_nonneg, H.
  - apply IH, IH, H.
  - apply shr_1_nonneg, H.
Qed.

Lemma shr_fexp_nonneg m e l :
  (0 <= m)%Z -> shr_nonneg (fst (shr_fexp prec emax m e l)).
Proof.
  intros H. unfold shr_fexp, shr.
  assert (shr_nonneg (shr_record_of_loc m l)) as H0
    by (unfold shr_nonneg; destruct l as [|[| |]]; exact H).
  destruct (fexp prec emax (Zdigits2 m + e) - e)%Z; simpl; try exact H0.
  now apply iter_pos_shr_1_nonneg.
Qed.

Lemma round_nearest_even_nonneg m l : (0 <= m)%Z -> (0 <= round_nearest_even m l)%Z.
Proof.
  intros H. unfold round_nearest_even.
  destruct l as [|[| |]]; try destruct (Z.even m); lia.
Qed.

Lemma binary_round_aux_sign sx mx ex lx :
  (0 <= mx)%Z ->
  let v := binary_round_aux prec emax sx mx ex lx in
  v = S754_zero sx \/ (exists m e, v = S754_finite sx m e) \/ v = S754_infinity sx.
Proof.
  intros H. unfold binary_round_aux.
  pose proof (shr_fexp_nonneg mx ex lx H) as H1.
  destruct (shr_fexp prec emax mx ex lx) as [mrs' e']. simpl in H1.
  pose proof (shr_fexp_nonneg _ e' loc_Exact
                (round_nearest_even_nonneg _ (loc_of_shr_record mrs') H1)) as H2.
  destruct (shr_fexp prec emax (round_nearest_even (shr_m mrs') (loc_of_shr_record mrs'))
              e' loc_Exact) as [mrs'' e''].
  simpl in H2. unfold shr_nonneg in H2. cbv zeta.
  destruct (shr_m mrs'') as [|m|m]; [auto| |lia].
  destruct (e'' <=? emax - prec)%Z; eauto.
Qed.

Lemma binary_round_aux_nonneg mx ex lx :
  (0 <= mx)%Z -> sf_nonneg (binary_round_aux prec emax false mx ex lx) = true.
Proof.
  intros H. destruct (binary_round_aux_sign false mx ex lx H) as [E|[(m & e & E)|E]];
    rewrite E; reflexivity.
Qed.

End Binary64.

Section Binary64Arithmetic.

Local Open Scope float_scope.

(** A positive finite number divided by a positive one (or by [+Infinity])
    is zero or above, never NaN. *)
Lemma div_pos_nonneg a b ma ea :
  Prim2SF a = S754_finite false ma ea ->
  sf_pos (Prim2SF b) = true ->
  sf_nonneg (Prim2SF (a / b)) = true.
Proof.
  intros Ha Hb. rewrite FloatAxioms.div_spec. unfold SF64div, SFdiv. rewrite Ha.
  destruct (Prim2SF b) as [[|]|[|]| |[|] mb eb]; try discriminate Hb; [reflexivity|].
  destruct (SFdiv_core_binary prec emax (Z.pos ma) ea (Z.pos mb) eb)
    as [[mz ez] lz] eqn:E.
  apply binary_round_aux_nonneg.
  unfold SFdiv_core_binary in E. cbv zeta in E.
  match type of E with
  | (let '(q, r) := Z.div_eucl ?m' _ in _) = _ =>
      assert (0 <= m')%Z as Hm by
          (destruct (ea - eb - _)%Z; try lia; apply Z.shiftl_nonneg; lia);
      pose proof (Z.div_pos m' (Z.pos mb) Hm ltac:(lia)) as Hq;
      unfold Z.div in Hq;
      destruct (Z.div_eucl m' (Z.pos mb)) as [q r]
  end.
  inversion E; subst. exact Hq.
Qed.

Lemma maxWidth_spec : exists m e, Prim2SF maxWidth = S754_finite false m e.
Proof. eexists; eexists. vm_compute. reflexivity. Qed.

Lemma maxHeight_spec : exists m e, Prim2SF maxHeight = S754_finite false m e.
Proof. eexists; eexists. vm_compute. reflexivity. Qed.

(** Zero times a finite number above or equal to zero is zero. *)
Lemma zero_mul a :
  sf_nonneg (Prim2SF a) = true -> sf_finite (Prim2SF a) = true -> 0 * a = 0.
Proof.
  intros Hn Hf. apply Prim2SF_inj. rewrite FloatAxioms.mul_spec. unfold SF64mul.
  change (Prim2SF 0) with (S754_zero false).
  destruct (Prim2SF a) as [[|]|[|]| |[|] m e];
    try discriminate Hn; try discriminate Hf; reflexivity.
Qed.

(** *** [Math.min] with a last argument of 1 *)

Lemma min_step_one lowest :
  Math.min_step lowest 1 = if 1 <? lowest then 1 else lowest.
Proof. unfold Math.min_step. now destruct (classify lowest). Qed.

Lemma min_step_either lowest number :
  Math.min_step lowest number = number \/ Math.min_step lowest number = lowest.
Proof.
  unfold Math.min_step.
  destruct (classify number), (classify lowest); auto;
    destruct (number <? lowest); auto.
Qed.

Lemma min_one_not_above a b : (1 <? Math.min [a; b; 1]) = false.
Proof.
  unfold Math.min. destruct (existsb is_nan [a; b; 1]); [reflexivity|].
  cbn [fold_left]. rewrite min_step_one.
  destruct (1 <? Math.min_step (Math.min_step infinity a) b) eqn:E;
    [reflexivity | exact E].
Qed.

Lemma min_one_nonneg a b :
  sf_nonneg (Prim2SF a) = true -> sf_nonneg (Prim2SF b) = true ->
  sf_nonneg (Prim2SF (Math.min [a; b; 1])) = true.
Proof.
  intros Ha Hb. unfold Math.min. cbn [existsb].
  rewrite (nonneg_not_nan a Ha), (nonneg_not_nan b Hb).
  change (is_nan 1) with false. cbn [orb fold_left].
  destruct (min_step_either (Math.min_step (Math.min_step infinity a) b) 1) as [-> | ->];
    [reflexivity|].
  destruct (min_step_either (Math.min_step infinity a) b) as [-> | ->];
    [exact Hb|].
  destruct (min_step_either infinity a) as [-> | ->]; [exact Ha | reflexivity].
Qed.

(** With both quotients zero or above, [Math.min] of them and 1 is a finite
    number between 0 and 1. *)
Lemma min_one_unit a b :
  sf_nonneg (Prim2SF a) = true -> sf_nonneg (Prim2SF b) = true ->
  let s := Math.min [a; b; 1] in
  sf_nonneg (Prim2SF s) = true /\ sf_finite (Prim2SF s) = true /\
  (0 <=? s) = true /\ (s <=? 1) = true.
Proof.
  intros Ha Hb s.
  pose proof (min_one_nonneg a b Ha Hb) as Hn. fold s in Hn.
  pose proof (min_one_not_above a b) as Hu. fold s in Hu.
  repeat split.
  - exact Hn.
  - rewrite FloatAxioms.ltb_spec in Hu. unfold SFltb in Hu.
    change (Prim2SF 1) with (S754_finite false 4503599627370496 (-52)) in Hu.
    destruct (Prim2SF s) as [[|]|[|]| |[|] m e]; try discriminate Hn;
      try reflexivity; discriminate Hu.
  - now apply nonneg_leb_zero.
  - apply not_above_leb; [reflexivity | exact Hn | exact Hu].
Qed.

(** The quotient by a source dimension that is zero or above zero. *)
Lemma quotient_nonneg a d ma ea :
  Prim2SF a = S754_finite false ma ea ->
  d = 0 \/ (0 <? d) = true ->
  sf_nonneg (Prim2SF (a / d)) = true.
Proof.
  intros Ha [-> | Hd].
  - rewrite FloatAxioms.div_spec. unfold SF64div, SFdiv. rewrite Ha. reflexivity.
  - eapply div_pos_nonneg; eauto using positive_spec.
Qed.

Lemma scale_unit w h :
  w = 0 \/ (0 <? w) = true -> h = 0 \/ (0 <? h) = true ->
  sf_nonneg (Prim2SF (scale w h)) = true /\ sf_finite (Prim2SF (scale w h)) = true /\
  (0 <=? scale w h) = true /\ (scale w h <=? 1) = true.
Proof.
  intros Hw Hh.
  destruct maxWidth_spec as (mw & ew & Ew). destruct maxHeight_spec as (mh & eh & Eh).
  apply min_one_unit; eapply quotient_nonneg; eauto.
Qed.

End Binary64Arithmetic.

(** ** Binary64 arithmetic on real values *)

Section Binary64Reals.

Local Open Scope R_scope.

(** *** Powers of two, digits, shifts *)

Lemma bpow_pos e : 0 < bpow e.
Proof. apply powerRZ_lt. lra. Qed.

Lemma bpow_add a b : bpow (a + b) = bpow a * bpow b.
Proof. apply powerRZ_add. lra. Qed.

Lemma bpow_1 : bpow 1 = 2.
Proof. unfold bpow. simpl. lra. Qed.

Lemma bpow_IZR n : (0 <= n)%Z -> bpow n = IZR (2 ^ n).
Proof.
  intros H. unfold bpow. rewrite <- (Z2Nat.id n H) at 1.
  rewrite <- pow_powerRZ. rewrite pow_IZR. now rewrite Z2Nat.id.
Qed.

Lemma bpow_ge_1 n : (0 <= n)%Z -> 1 <= bpow n.
Proof.
  intros H. rewrite bpow_IZR by assumption. apply IZR_le.
  pose proof (Z.pow_pos_nonneg 2 n ltac:(lia) H). lia.
Qed.

Lemma bpow_le a b : (a <= b)%Z -> bpow a <= bpow b.
Proof.
  intros H. replace b with (a + (b - a))%Z by lia. rewrite bpow_add.
  pose proof (bpow_pos a). pose proof (bpow_ge_1 (b - a) ltac:(lia)). nra.
Qed.

(** The number of binary digits. *)
Lemma digits2_pos_spec m :
  (2 ^ (Z.pos (digits2_pos m) - 1) <= Z.pos m < 2 ^ Z.pos (digits2_pos m))%Z.
Proof.
  induction m as [m IH|m IH|]; cbn [digits2_pos].
  - rewrite Pos2Z.inj_succ.
    replace (Z.succ (Z.pos (digits2_pos m)) - 1)%Z with (Z.pos (digits2_pos m) - 1 + 1)%Z by lia.
    rewrite Z.pow_add_r by lia. rewrite Z.pow_succ_r by lia. lia.
  - rewrite Pos2Z.inj_succ.
    replace (Z.succ (Z.pos (digits2_pos m)) - 1)%Z with (Z.pos (digits2_pos m) - 1 + 1)%Z by lia.
    rewrite Z.pow_add_r by lia. rewrite Z.pow_succ_r by lia. lia.
  - simpl. lia.
Qed.

Lemma digits2_pos_unique m d :
  (2 ^ (d - 1) <= Z.pos m < 2 ^ d)%Z -> Z.pos (digits2_pos m) = d.
Proof.
  intros [L U]. pose proof (digits2_pos_spec m) as [L' U'].
  assert (0 < d)%Z as Hd.
  { destruct (Z_lt_le_dec 0 d); [assumption|].
    destruct (Z.eq_dec d 0) as [->|]; [simpl in U; lia|].
    rewrite Z.pow_neg_r in U by lia. lia. }
  destruct (Z_lt_le_dec (Z.pos (digits2_pos m)) d) as [C|C].
  - assert (2 ^ Z.pos (digits2_pos m) <= 2 ^ (d - 1))%Z by (apply Z.pow_le_mono_r; lia). lia.
  - destruct (Z_lt_le_dec d (Z.pos (digits2_pos m))) as [C'|C']; [|lia].
    assert (2 ^ d <= 2 ^ (Z.pos (digits2_pos m) - 1))%Z by (apply Z.pow_le_mono_r; lia). lia.
Qed.

(** Shifting right divides by a power of two. *)
Lemma shr_1_m mrs : (0 <= shr_m mrs)%Z -> shr_m (shr_1 mrs) = (shr_m mrs / 2)%Z.
Proof.
  destruct mrs as [m r s]. simpl. intros H.
  destruct m as [|[p|p|]|p]; simpl; try lia; try reflexivity.
  - apply Z.div_unique with 1%Z; lia.
  - apply Z.div_unique with 0%Z; lia.
Qed.

Lemma shr_1_m_nonneg mrs : (0 <= shr_m mrs)%Z -> (0 <= shr_m (shr_1 mrs))%Z.
Proof. intros H. rewrite shr_1_m by assumption. apply Z.div_pos; lia. Qed.

Lemma pow2_xI p : (2 ^ Z.pos p~1 = 2 * (2 ^ Z.pos p * 2 ^ Z.pos p))%Z.
Proof.
  replace (Z.pos p~1) with (Z.pos p + Z.pos p + 1)%Z by lia.
  rewrite !Z.pow_add_r by lia. change (2 ^ 1)%Z with 2%Z. lia.
Qed.

Lemma pow2_xO p : (2 ^ Z.pos p~0 = 2 ^ Z.pos p * 2 ^ Z.pos p)%Z.
Proof.
  replace (Z.pos p~0) with (Z.pos p + Z.pos p)%Z by lia.
  now rewrite !Z.pow_add_r by lia.
Qed.

Lemma iter_pos_shr_1_m p : forall mrs,
  (0 <= shr_m mrs)%Z ->
  shr_m (SpecFloat.iter_pos shr_1 p mrs) = (shr_m mrs / 2 ^ Z.pos p)%Z.
Proof.
  induction p as [p IH|p IH|]; intros mrs H; cbn [SpecFloat.iter_pos].
  - pose proof (shr_1_m_nonneg mrs H) as H1.
    assert (0 <= shr_m (SpecFloat.iter_pos shr_1 p (shr_1 mrs)))%Z as H2.
    { rewrite IH by assumption. apply Z.div_pos; lia. }
    rewrite IH by assumption. rewrite IH by assumption. rewrite shr_1_m by assumption.
    assert (0 < 2 ^ Z.pos p)%Z by (apply Z.pow_pos_nonneg; lia).
    rewrite !Z.div_div by lia. f_equal. rewrite pow2_xI. lia.
  - assert (0 <= shr_m (SpecFloat.iter_pos shr_1 p mrs))%Z as H2.
    { rewrite IH by assumption. apply Z.div_pos; lia. }
    rewrite IH by assumption. rewrite IH by assumption.
    assert (0 < 2 ^ Z.pos p)%Z by (apply Z.pow_pos_nonneg; lia).
    rewrite !Z.div_div by lia. f_equal. now rewrite pow2_xO.
  - rewrite shr_1_m by assumption. reflexivity.
Qed.

(** *** Rounding *)

Lemma fexp_normal x : (-1074 <= x - 53)%Z -> fexp prec emax x = (x - 53)%Z.
Proof. unfold fexp, emin, prec, emax. lia. Qed.

Lemma pow2_pos n : (0 <= n)%Z -> (0 < 2 ^ n)%Z.
Proof. intros. apply Z.pow_pos_nonneg; lia. Qed.

(** Dropping the bits beyond the 53rd. *)
Lemma top_bits m d :
  (53 <= d)%Z -> (2 ^ (d - 1) <= m < 2 ^ d)%Z ->
  (2 ^ 52 <= m / 2 ^ (d - 53) < 2 ^ 53)%Z.
Proof.
  intros Hd [L U]. pose proof (pow2_pos (d - 53) ltac:(lia)) as P.
  split.
  - apply Z.div_le_lower_bound; [assumption|].
    rewrite <- Z.pow_add_r by lia. now replace (d - 53 + 52)%Z with (d - 1)%Z by lia.
  - apply Z.div_lt_upper_bound; [assumption|].
    rewrite <- Z.pow_add_r by lia. now replace (d - 53 + 53)%Z with d by lia.
Qed.

Lemma shr_fexp_spec mp e l :
  let d := Z.pos (digits2_pos mp) in
  (53 <= d)%Z -> (-1074 <= d + e - 53)%Z ->
  snd (shr_fexp prec emax (Z.pos mp) e l) = (d + e - 53)%Z /\
  shr_m (fst (shr_fexp prec emax (Z.pos mp) e l)) = (Z.pos mp / 2 ^ (d - 53))%Z.
Proof.
  intros d Hd He. unfold shr_fexp. cbn [Zdigits2]. fold d.
  rewrite fexp_normal by lia.
  replace (d + e - 53 - e)%Z with (d - 53)%Z by lia.
  unfold shr. destruct (d - 53)%Z as [|p|p] eqn:E; try lia.
  - cbn [fst snd]. split; [lia|].
    rewrite Z.pow_0_r, Z.div_1_r. now destruct l as [|[| |]].
  - cbn [fst snd]. split; [lia|].
    rewrite iter_pos_shr_1_m; now destruct l as [|[| |]].
Qed.

Lemma round_nearest_even_spec m l :
  (m <= round_nearest_even m l <= m + 1)%Z.
Proof. unfold round_nearest_even. destruct l as [|[| |]]; try destruct (Z.even m); lia. Qed.

Lemma bpow_m51 : bpow (-51) * 4503599627370496 = 2.
Proof. unfold bpow. simpl. lra. Qed.

(** Rounding: the result is a normal number within [2^-51] of the value
    rounded, relatively. *)
Lemma binary_round_aux_correct sx mx ex lx t :
  let d := Z.pos (digits2_pos mx) in
  (53 <= d)%Z -> (-1074 <= d + ex - 53)%Z -> (d + ex - 52 <= 971)%Z ->
  IZR (Z.pos mx) * bpow ex <= t <= (IZR (Z.pos mx) + 1) * bpow ex ->
  exists m e,
    binary_round_aux prec emax sx (Z.pos mx) ex lx = S754_finite sx m e /\
    Z.pos (digits2_pos m) = 53%Z /\
    (d + ex - 53 <= e <= d + ex - 52)%Z /\
    Rabs (IZR (Z.pos m) * bpow e - t) <= bpow (-51) * t.
Proof.
  intros d Hd Hlo Hhi Ht. unfold binary_round_aux.
  destruct (shr_fexp_spec mx ex lx Hd Hlo) as [E1 M1]. fold d in E1, M1.
  destruct (shr_fexp prec emax (Z.pos mx) ex lx) as [mrs' e'].
  cbn [fst snd] in E1, M1.
  pose proof (digits2_pos_spec mx) as Dm. fold d in Dm.
  pose proof (top_bits (Z.pos mx) d Hd Dm) as T1. rewrite <- M1 in T1.
  set (r := round_nearest_even (shr_m mrs') (loc_of_shr_record mrs')).
  pose proof (round_nearest_even_spec (shr_m mrs') (loc_of_shr_record mrs')) as Rr.
  fold r in Rr.
  destruct r as [|rp|rp] eqn:Er; try lia.
  set (d2 := Z.pos (digits2_pos rp)).
  assert (53 <= d2 <= 54)%Z as Hd2.
  { pose proof (digits2_pos_spec rp) as D2. fold d2 in D2.
    assert (d2 < 55)%Z.
    { destruct (Z_lt_le_dec d2 55); [assumption|].
      assert (2 ^ 54 <= 2 ^ (d2 - 1))%Z by (apply Z.pow_le_mono_r; lia).
      change (2 ^ 53)%Z with 9007199254740992%Z in T1.
      change (2 ^ 54)%Z with 18014398509481984%Z in *. lia. }
    assert (52 < d2)%Z.
    { destruct (Z_lt_le_dec 52 d2); [assumption|].
      assert (2 ^ d2 <= 2 ^ 52)%Z by (apply Z.pow_le_mono_r; lia). lia. }
    lia. }
  destruct (shr_fexp_spec rp e' loc_Exact) as [E2 M2]; fold d2; try lia.
  fold d2 in E2, M2.
  destruct (shr_fexp prec emax (Z.pos rp) e' loc_Exact) as [mrs'' e''].
  cbn [fst snd] in E2, M2.
  pose proof (digits2_pos_spec rp) as D2. fold d2 in D2.
  pose proof (top_bits (Z.pos rp) d2 ltac:(lia) D2) as T2. rewrite <- M2 in T2.
  destruct (shr_m mrs'') as [|m|m] eqn:Em; try lia.
  replace (e'' <=? emax - prec)%Z with true
    by (symmetry; apply Z.leb_le; unfold emax, prec; lia).
  exists m, e''. split; [reflexivity|].
  split; [now apply digits2_pos_unique|].
  split; [lia|].
  (* the value *)
  set (n := (d - 53)%Z) in *.
  assert (0 <= n)%Z as Hn by (unfold n; lia).
  pose proof (pow2_pos n Hn) as Pn.
  assert (Z.pos mx = 2 ^ n * shr_m mrs' + Z.pos mx mod 2 ^ n)%Z as Dv
    by (rewrite M1; apply Z.div_mod; lia).
  pose proof (Z.mod_pos_bound (Z.pos mx) (2 ^ n) Pn) as Bn.
  set (u := bpow e').
  assert (0 < u) as Pu by apply bpow_pos.
  assert (bpow ex * IZR (2 ^ n) = u) as Eu.
  { unfold u. rewrite E1. replace (d + ex - 53)%Z with (ex + n)%Z by (unfold n; lia).
    rewrite bpow_add. now rewrite (bpow_IZR n Hn). }
  assert (IZR (shr_m mrs') * u <= t <= (IZR (shr_m mrs') + 1) * u) as F1.
  { rewrite <- Eu. pose proof (bpow_pos ex) as Pe.
    assert (IZR (shr_m mrs') * IZR (2 ^ n) <= IZR (Z.pos mx)) as A1
      by (rewrite <- mult_IZR; apply IZR_le; lia).
    assert (IZR (Z.pos mx) + 1 <= (IZR (shr_m mrs') + 1) * IZR (2 ^ n)) as A2.
    { replace 1 with (IZR 1) by reflexivity.
      rewrite <- !plus_IZR, <- mult_IZR. apply IZR_le. lia. }
    split; [|destruct Ht as [_ Ht]]; nra. }
  assert (IZR (shr_m mrs') <= IZR (Z.pos rp) <= IZR (shr_m mrs') + 1) as F2.
  { replace 1 with (IZR 1) by reflexivity. rewrite <- plus_IZR.
    split; apply IZR_le; lia. }
  assert (4503599627370496 <= IZR (shr_m mrs')) as F4
    by (apply IZR_le; change 4503599627370496%Z with (2 ^ 52)%Z; lia).
  pose proof bpow_m51 as K.
  assert (d2 = 53 \/ d2 = 54)%Z as [C|C] by lia.
  - assert (Z.pos m = Z.pos rp) as ->
      by (rewrite M2, C; change (2 ^ (53 - 53))%Z with 1%Z; now rewrite Z.div_1_r).
    replace e'' with e' by lia. fold u.
    apply Rabs_le. split; nra.
  - assert (bpow e'' = 2 * u) as ->.
    { replace e'' with (e' + 1)%Z by lia. rewrite bpow_add, bpow_1. unfold u. lra. }
    assert (2 * IZR (Z.pos m) <= IZR (Z.pos rp) <= 2 * IZR (Z.pos m) + 1) as F3.
    { rewrite C in M2. change (2 ^ (54 - 53))%Z with 2%Z in M2.
      pose proof (Z.div_mod (Z.pos rp) 2 ltac:(lia)) as Dm2.
      pose proof (Z.mod_pos_bound (Z.pos rp) 2 ltac:(lia)) as Bm2.
      rewrite <- M2 in Dm2.
      replace 2 with (IZR 2) by reflexivity. replace 1 with (IZR 1) by reflexivity.
      rewrite <- mult_IZR, <- plus_IZR. split; apply IZR_le; lia. }
    apply Rabs_le. split; nra.
Qed.

(** *** Operations on positive normal numbers *)

Lemma normal_pos_F2R f m e : normal_pos f m e -> F2R f = IZR (Z.pos m) * bpow e.
Proof. intros [H _]. unfold F2R. rewrite H. lra. Qed.

Lemma normal_pos_mantissa f m e :
  normal_pos f m e -> (4503599627370496 <= Z.pos m < 9007199254740992)%Z.
Proof.
  intros [_ H]. pose proof (digits2_pos_spec m) as D. rewrite H in D.
  change (2 ^ (53 - 1))%Z with 4503599627370496%Z in D.
  change (2 ^ 53)%Z with 9007199254740992%Z in D. exact D.
Qed.

Lemma normal_pos_positive f m e : normal_pos f m e -> 0 < F2R f.
Proof.
  intros H. rewrite (normal_pos_F2R f m e H).
  pose proof (bpow_pos e). assert (0 < IZR (Z.pos m)) by (apply IZR_lt; lia). nra.
Qed.

(** Multiplication. *)
Lemma mul_correct x y mx ex my ey :
  normal_pos x mx ex -> normal_pos y my ey ->
  (-1074 <= ex + ey + 52)%Z -> (ex + ey + 54 <= 971)%Z ->
  exists m e,
    normal_pos (x * y) m e /\ (ex + ey + 52 <= e <= ex + ey + 54)%Z /\
    Rabs (F2R (x * y) - F2R x * F2R y) <= bpow (-51) * (F2R x * F2R y).
Proof.
  intros Hx Hy Hlo Hhi.
  pose proof (normal_pos_mantissa _ _ _ Hx) as Bx.
  pose proof (normal_pos_mantissa _ _ _ Hy) as By.
  rewrite (normal_pos_F2R _ _ _ Hx), (normal_pos_F2R _ _ _ Hy).
  destruct Hx as [Ex _], Hy as [Ey _].
  assert (Prim2SF (x * y) =
          binary_round_aux prec emax false (Z.pos (mx * my)) (ex + ey) loc_Exact) as E
    by (rewrite FloatAxioms.mul_spec; unfold SF64mul; rewrite Ex, Ey; reflexivity).
  set (d := Z.pos (digits2_pos (mx * my))).
  assert (105 <= d <= 106)%Z as Hd.
  { pose proof (digits2_pos_spec (mx * my)) as D. fold d in D.
    rewrite Pos2Z.inj_mul in D.
    assert (2 ^ 104 <= Z.pos mx * Z.pos my < 2 ^ 106)%Z as P.
    { change (2 ^ 104)%Z with (4503599627370496 * 4503599627370496)%Z.
      change (2 ^ 106)%Z with (9007199254740992 * 9007199254740992)%Z. nia. }
    assert (d < 107)%Z.
    { destruct (Z_lt_le_dec d 107); [assumption|].
      assert (2 ^ 106 <= 2 ^ (d - 1))%Z by (apply Z.pow_le_mono_r; lia). lia. }
    assert (104 < d)%Z.
    { destruct (Z_lt_le_dec 104 d); [assumption|].
      assert (2 ^ d <= 2 ^ 104)%Z by (apply Z.pow_le_mono_r; lia). lia. }
    lia. }
  destruct (binary_round_aux_correct false (mx * my) (ex + ey) loc_Exact
              (IZR (Z.pos mx) * bpow ex * (IZR (Z.pos my) * bpow ey)))
    as (m & e & Er & Dm & Re & Ve); fold d; try lia.
  { rewrite Pos2Z.inj_mul, mult_IZR, bpow_add.
    pose proof (bpow_pos ex). pose proof (bpow_pos ey).
    split; nra. }
  exists m, e. rewrite Er in E.
  split; [split; assumption|]. split; [fold d in Re; lia|].
  unfold F2R at 1. rewrite E.
  replace (1 * (IZR (Z.pos m) * bpow e)) with (IZR (Z.pos m) * bpow e) by lra.
  exact Ve.
Qed.

Lemma digits_53_54 q :
  (2 ^ 52 <= Z.pos q < 2 ^ 54)%Z -> (53 <= Z.pos (digits2_pos q) <= 54)%Z.
Proof.
  intros [L U]. pose proof (digits2_pos_spec q) as D.
  set (d := Z.pos (digits2_pos q)) in *.
  assert (d < 55)%Z.
  { destruct (Z_lt_le_dec d 55); [assumption|].
    assert (2 ^ 54 <= 2 ^ (d - 1))%Z by (apply Z.pow_le_mono_r; lia). lia. }
  assert (52 < d)%Z.
  { destruct (Z_lt_le_dec 52 d); [assumption|].
    assert (2 ^ d <= 2 ^ 52)%Z by (apply Z.pow_le_mono_r; lia). lia. }
  lia.
Qed.

Lemma Rdiv_lower a b q : 0 < b -> q * b <= a -> q <= a / b.
Proof.
  intros Hb H. apply (Rmult_le_reg_r b); [assumption|].
  unfold Rdiv. rewrite Rmult_assoc, Rinv_l by lra. lra.
Qed.

Lemma Rdiv_upper a b q : 0 < b -> a <= q * b -> a / b <= q.
Proof.
  intros Hb H. apply (Rmult_le_reg_r b); [assumption|].
  unfold Rdiv. rewrite Rmult_assoc, Rinv_l by lra. lra.
Qed.

(** Division. *)
Lemma div_correct x y mx ex my ey :
  normal_pos x mx ex -> normal_pos y my ey ->
  (-1074 <= ex - ey - 53)%Z -> (ex - ey - 51 <= 971)%Z ->
  exists m e,
    normal_pos (x / y) m e /\ (ex - ey - 53 <= e <= ex - ey - 51)%Z /\
    Rabs (F2R (x / y) - F2R x / F2R y) <= bpow (-51) * (F2R x / F2R y).
Proof.
  intros Hx Hy Hlo Hhi.
  pose proof (normal_pos_mantissa _ _ _ Hx) as Bx.
  pose proof (normal_pos_mantissa _ _ _ Hy) as By.
  rewrite (normal_pos_F2R _ _ _ Hx), (normal_pos_F2R _ _ _ Hy).
  destruct Hx as [Ex Dx], Hy as [Ey Dy].
  set (e' := (ex - ey - 53)%Z).
  set (q := (Z.pos mx * 2 ^ 53 / Z.pos my)%Z).
  assert (SFdiv_core_binary prec emax (Z.pos mx) ex (Z.pos my) ey
          = (q, e', new_location (Z.pos my) (Z.pos mx * 2 ^ 53 mod Z.pos my))) as Core.
  { unfold SFdiv_core_binary. cbn [Zdigits2]. rewrite Dx, Dy.
    replace (53 + ex - (53 + ey))%Z with (ex - ey)%Z by lia.
    rewrite fexp_normal by lia.
    replace (Z.min (ex - ey - 53) (ex - ey)) with e' by (unfold e'; lia).
    replace (ex - ey - e')%Z with 53%Z by (unfold e'; lia).
    cbv zeta. rewrite Z.shiftl_mul_pow2 by lia.
    unfold q, Z.div, Z.modulo.
    destruct (Z.div_eucl (Z.pos mx * 2 ^ 53) (Z.pos my)); reflexivity. }
  assert (Prim2SF (x / y) =
          binary_round_aux prec emax false q e'
            (new_location (Z.pos my) (Z.pos mx * 2 ^ 53 mod Z.pos my))) as E.
  { rewrite FloatAxioms.div_spec. unfold SF64div, SFdiv. rewrite Ex, Ey, Core. reflexivity. }
  pose proof (Z.div_mod (Z.pos mx * 2 ^ 53) (Z.pos my) ltac:(lia)) as Dv. fold q in Dv.
  pose proof (Z.mod_pos_bound (Z.pos mx * 2 ^ 53) (Z.pos my) ltac:(lia)) as Bm.
  change (2 ^ 53)%Z with 9007199254740992%Z in *.
  assert (2 ^ 52 <= q < 2 ^ 54)%Z as Bq.
  { change (2 ^ 52)%Z with 4503599627370496%Z.
    change (2 ^ 54)%Z with 18014398509481984%Z. nia. }
  destruct q as [|qp|qp] eqn:Eq; try (change (2 ^ 52)%Z with 4503599627370496%Z in Bq; lia).
  pose proof (digits_53_54 qp Bq) as Hd.
  set (t := IZR (Z.pos mx) * bpow ex / (IZR (Z.pos my) * bpow ey)).
  assert (IZR (Z.pos qp) * bpow e' <= t <= (IZR (Z.pos qp) + 1) * bpow e') as Ht.
  { unfold t.
    assert (bpow ex = bpow e' * 9007199254740992 * bpow ey) as ->.
    { replace ex with (e' + 53 + ey)%Z at 1 by (unfold e'; lia).
      rewrite !bpow_add. rewrite (bpow_IZR 53) by lia. reflexivity. }
    pose proof (bpow_pos e') as Pe. pose proof (bpow_pos ey) as Py.
    assert (0 < IZR (Z.pos my)) as Pm by (apply IZR_lt; lia).
    assert (IZR (Z.pos qp) * IZR (Z.pos my) <= IZR (Z.pos mx) * 9007199254740992) as A1.
    { rewrite <- !mult_IZR. apply IZR_le. lia. }
    assert (IZR (Z.pos mx) * 9007199254740992 <= (IZR (Z.pos qp) + 1) * IZR (Z.pos my)) as A2.
    { replace 1 with (IZR 1) by reflexivity.
      rewrite <- plus_IZR, <- !mult_IZR. apply IZR_le. lia. }
    replace (IZR (Z.pos mx) * (bpow e' * 9007199254740992 * bpow ey) /
             (IZR (Z.pos my) * bpow ey))
      with (IZR (Z.pos mx) * 9007199254740992 / IZR (Z.pos my) * bpow e')
      by (field; lra).
    split.
    - apply Rmult_le_compat_r; [lra|].
      apply Rdiv_lower; [assumption|]. exact A1.
    - apply Rmult_le_compat_r; [lra|].
      apply Rdiv_upper; [assumption|]. exact A2. }
  destruct (binary_round_aux_correct false qp e'
              (new_location (Z.pos my) (Z.pos mx * 9007199254740992 mod Z.pos my)) t)
    as (m & e & Er & Dm & Re & Ve); try (unfold e'; lia); try exact Ht.
  exists m, e. rewrite Er in E.
  split; [split; assumption|]. split; [unfold e' in Re; lia|].
  unfold F2R at 1. rewrite E.
  replace (1 * (IZR (Z.pos m) * bpow e)) with (IZR (Z.pos m) * bpow e) by lra.
  exact Ve.
Qed.

Lemma iter_xO m d : Z.pos (Pos.iter xO m d) = (Z.pos m * 2 ^ Z.pos d)%Z.
Proof.
  induction d as [|d IH] using Pos.peano_ind.
  - simpl. lia.
  - rewrite Pos.iter_succ, Pos2Z.inj_xO, IH, Pos2Z.inj_succ, Z.pow_succ_r by lia. lia.
Qed.

Lemma shl_align_spec m e e' :
  (e' <= e)%Z ->
  Z.pos (fst (shl_align m e e')) = (Z.pos m * 2 ^ (e - e'))%Z /\
  snd (shl_align m e e') = e'.
Proof.
  intros H. unfold shl_align.
  destruct (e' - e)%Z as [|p|p] eqn:E; try lia; cbn [fst snd].
  - replace (e - e')%Z with 0%Z by lia. rewrite Z.pow_0_r. lia.
  - rewrite iter_xO. replace (e - e')%Z with (Z.pos p) by lia. auto.
Qed.

Lemma shl_align_keep m e e' : (e <= e')%Z -> shl_align m e e' = (m, e).
Proof. intros H. unfold shl_align. destruct (e' - e)%Z eqn:E; try lia; reflexivity. Qed.

(** The mantissa aligned on a smaller exponent stands for the same number. *)
Lemma aligned_value m e e' :
  (e' <= e)%Z -> IZR (Z.pos m * 2 ^ (e - e')) * bpow e' = IZR (Z.pos m) * bpow e.
Proof.
  intros H. rewrite mult_IZR, <- (bpow_IZR (e - e')) by lia.
  rewrite Rmult_assoc, <- bpow_add. now replace (e - e' + e')%Z with e by lia.
Qed.

(** Normalising a positive integer mantissa. *)
Lemma binary_round_correct M ez :
  let d := Z.pos (digits2_pos M) in
  (-1074 <= d + ez - 53)%Z -> (d + ez - 52 <= 971)%Z ->
  exists m e,
    binary_round prec emax false M ez = S754_finite false m e /\
    Z.pos (digits2_pos m) = 53%Z /\
    (d + ez - 53 <= e <= d + ez - 52)%Z /\
    Rabs (IZR (Z.pos m) * bpow e - IZR (Z.pos M) * bpow ez)
    <= bpow (-51) * (IZR (Z.pos M) * bpow ez).
Proof.
  intros d Hlo Hhi. unfold binary_round. fold d. rewrite fexp_normal by lia.
  pose proof (digits2_pos_spec M) as DM. fold d in DM.
  destruct (Z_lt_le_dec d 53) as [Small|Big].
  - destruct (shl_align_spec M ez (d + ez - 53) ltac:(lia)) as [Em Ee].
    destruct (shl_align M ez (d + ez - 53)) as [mz ez']. cbn [fst snd] in Em, Ee. subst ez'.
    replace (ez - (d + ez - 53))%Z with (53 - d)%Z in Em by lia.
    assert (Z.pos (digits2_pos mz) = 53%Z) as Dz.
    { apply digits2_pos_unique. rewrite Em.
      assert (2 ^ (53 - 1) = 2 ^ (d - 1) * 2 ^ (53 - d))%Z as ->
        by (rewrite <- Z.pow_add_r by lia; f_equal; lia).
      assert (2 ^ 53 = 2 ^ d * 2 ^ (53 - d))%Z as ->
        by (rewrite <- Z.pow_add_r by lia; f_equal; lia).
      pose proof (pow2_pos (53 - d) ltac:(lia)). nia. }
    destruct (binary_round_aux_correct false mz (d + ez - 53) loc_Exact
                (IZR (Z.pos M) * bpow ez)) as (m & e & Er & Dm & Re & Ve);
      rewrite ?Dz; try lia.
    { rewrite Em. replace (53 - d)%Z with (ez - (d + ez - 53))%Z by lia.
      rewrite aligned_value by lia. pose proof (bpow_pos (d + ez - 53)).
      pose proof (bpow_pos ez). assert (0 < IZR (Z.pos M)) by (apply IZR_lt; lia).
      split; [lra|].
      replace (IZR (Z.pos M) * bpow ez)
        with (IZR (Z.pos M * 2 ^ (ez - (d + ez - 53))) * bpow (d + ez - 53))
        by (apply aligned_value; lia).
      nra. }
    exists m, e. rewrite Dz in Re. repeat split; try assumption; lia.
  - rewrite shl_align_keep by lia.
    destruct (binary_round_aux_correct false M ez loc_Exact (IZR (Z.pos M) * bpow ez))
      as (m & e & Er & Dm & Re & Ve); fold d; try lia.
    { pose proof (bpow_pos ez). split; nra. }
    exists m, e. fold d in Re. repeat split; try assumption; lia.
Qed.

(** Subtraction of a smaller number. *)
Lemma sub_correct x y mx ex my ey :
  normal_pos x mx ex -> normal_pos y my ey ->
  F2R y < F2R x ->
  (-1074 <= Z.min ex ey - 52)%Z -> (Z.max ex ey + 1 <= 971)%Z ->
  exists m e,
    normal_pos (x - y) m e /\ (Z.min ex ey - 52 <= e <= Z.max ex ey + 1)%Z /\
    Rabs (F2R (x - y) - (F2R x - F2R y)) <= bpow (-51) * (F2R x - F2R y).
Proof.
  intros Hx Hy Hlt Hlo Hhi.
  pose proof (normal_pos_mantissa _ _ _ Hx) as Bx.
  pose proof (normal_pos_mantissa _ _ _ Hy) as By.
  rewrite (normal_pos_F2R _ _ _ Hx), (normal_pos_F2R _ _ _ Hy) in *.
  destruct Hx as [Ex Dx], Hy as [Ey Dy].
  set (ez := Z.min ex ey) in *.
  destruct (shl_align_spec mx ex ez ltac:(unfold ez; lia)) as [M1 _].
  destruct (shl_align_spec my ey ez ltac:(unfold ez; lia)) as [M2 _].
  pose proof (aligned_value mx ex ez ltac:(unfold ez; lia)) as V1.
  pose proof (aligned_value my ey ez ltac:(unfold ez; lia)) as V2.
  rewrite <- M1 in V1. rewrite <- M2 in V2.
  set (A1 := Z.pos (fst (shl_align mx ex ez))) in *.
  set (A2 := Z.pos (fst (shl_align my ey ez))) in *.
  assert (Prim2SF (x - y) = binary_normalize prec emax (A1 - A2) ez false) as E
    by (rewrite FloatAxioms.sub_spec; unfold SF64sub, SFsub; rewrite Ex, Ey; reflexivity).
  pose proof (bpow_pos ez) as Pz.
  assert (0 < A1 - A2)%Z as Pos.
  { apply lt_IZR. rewrite minus_IZR. nra. }
  destruct (A1 - A2)%Z as [|M|M] eqn:EM; try lia.
  cbn [binary_normalize] in E.
  set (d := Z.pos (digits2_pos M)).
  pose proof (digits2_pos_spec M) as DM. fold d in DM.
  assert (1 <= d)%Z as Hd1 by (unfold d; lia).
  assert (d <= 53 + (Z.max ex ey - ez))%Z as Hd2.
  { destruct (Z_lt_le_dec (53 + (Z.max ex ey - ez)) d) as [C|C]; [|assumption].
    assert (2 ^ (53 + (Z.max ex ey - ez)) <= 2 ^ (d - 1))%Z
      by (apply Z.pow_le_mono_r; lia).
    assert (A1 < 2 ^ (53 + (Z.max ex ey - ez)))%Z.
    { rewrite M1. rewrite Z.pow_add_r by (unfold ez; lia).
      change (2 ^ 53)%Z with 9007199254740992%Z.
      assert (2 ^ (ex - ez) <= 2 ^ (Z.max ex ey - ez))%Z
        by (apply Z.pow_le_mono_r; unfold ez; lia).
      pose proof (pow2_pos (ex - ez) ltac:(unfold ez; lia)). nia. }
    assert (0 < A2)%Z by (unfold A2; lia). lia. }
  destruct (binary_round_correct M ez) as (m & e & Er & Dm & Re & Ve); fold d; try lia.
  exists m, e. rewrite Er in E. fold d in Re.
  split; [split; assumption|]. split; [lia|].
  unfold F2R at 1. rewrite E.
  replace (1 * (IZR (Z.pos m) * bpow e)) with (IZR (Z.pos m) * bpow e) by lra.
  replace (IZR (Z.pos mx) * bpow ex - IZR (Z.pos my) * bpow ey)
    with (IZR (Z.pos M) * bpow ez); [exact Ve|].
  rewrite <- EM, minus_IZR. lra.
Qed.

(** *** Order *)

Lemma value_lt_exponent mx ex my ey :
  (4503599627370496 <= Z.pos mx < 9007199254740992)%Z ->
  (4503599627370496 <= Z.pos my < 9007199254740992)%Z ->
  (ex < ey)%Z -> IZR (Z.pos mx) * bpow ex < IZR (Z.pos my) * bpow ey.
Proof.
  intros Bx By H.
  assert (bpow (ex + 1) <= bpow ey) as L by (apply bpow_le; lia).
  rewrite bpow_add, bpow_1 in L. pose proof (bpow_pos ex) as Px.
  assert (IZR (Z.pos mx) < 9007199254740992) by (apply IZR_lt; lia).
  assert (4503599627370496 <= IZR (Z.pos my)) by (apply IZR_le; lia).
  nra.
Qed.

Lemma compare_normal x y mx ex my ey :
  normal_pos x mx ex -> normal_pos y my ey ->
  match SFcompare (Prim2SF x) (Prim2SF y) with
  | Some Lt => F2R x < F2R y
  | Some Eq => F2R x = F2R y
  | Some Gt => F2R y < F2R x
  | None => False
  end.
Proof.
  intros Hx Hy.
  pose proof (normal_pos_mantissa _ _ _ Hx) as Bx.
  pose proof (normal_pos_mantissa _ _ _ Hy) as By.
  rewrite (normal_pos_F2R _ _ _ Hx), (normal_pos_F2R _ _ _ Hy).
  destruct Hx as [-> _], Hy as [-> _]. cbn [SFcompare].
  destruct (Z.compare_spec ex ey) as [->|L|G].
  - change (Pos.compare_cont Eq mx my) with (Pos.compare mx my).
    pose proof (bpow_pos ey) as Py.
    destruct (Pos.compare_spec mx my) as [->|L|G].
    + reflexivity.
    + apply Rmult_lt_compat_r; [assumption|]. apply IZR_lt. lia.
    + apply Rmult_lt_compat_r; [assumption|]. apply IZR_lt. lia.
  - now apply value_lt_exponent.
  - now apply value_lt_exponent.
Qed.

Lemma ltb_true x y mx ex my ey :
  normal_pos x mx ex -> normal_pos y my ey ->
  (x <? y)%float = true -> F2R x < F2R y.
Proof.
  intros Hx Hy. pose proof (compare_normal x y mx ex my ey Hx Hy) as C.
  rewrite FloatAxioms.ltb_spec. unfold SFltb.
  destruct (SFcompare (Prim2SF x) (Prim2SF y)) as [[| |]|]; try discriminate. auto.
Qed.

Lemma ltb_false x y mx ex my ey :
  normal_pos x mx ex -> normal_pos y my ey ->
  (x <? y)%float = false -> F2R y <= F2R x.
Proof.
  intros Hx Hy. pose proof (compare_normal x y mx ex my ey Hx Hy) as C.
  rewrite FloatAxioms.ltb_spec. unfold SFltb.
  destruct (SFcompare (Prim2SF x) (Prim2SF y)) as [[| |]|]; try discriminate;
    intros _; try lra; contradiction.
Qed.

(** A number between two positive normal numbers is one. *)

Lemma between_normal lo hi f mlo elo mhi ehi :
  normal_pos lo mlo elo -> normal_pos hi mhi ehi ->
  (-1074 < elo)%Z ->
  (lo <=? f)%float = true -> (f <=? hi)%float = true ->
  exists m e, normal_pos f m e /\ (elo <= e <= ehi)%Z.
Proof.
  intros [Elo _] [Ehi _] Hmin. rewrite !FloatAxioms.leb_spec. unfold SFleb. rewrite Elo, Ehi.
  pose proof (Prim2SF_valid f) as V.
  destruct (Prim2SF f) as [s|s| |s m e] eqn:Ef; cbn [SFcompare];
    try destruct s; try discriminate.
  intros H1 H2. exists m, e.
  assert (elo <= e)%Z as L.
  { destruct (Z.compare_spec elo e); try lia; discriminate H1. }
  assert (e <= ehi)%Z as U.
  { destruct (Z.compare_spec e ehi); try lia; discriminate H2. }
  split; [|lia]. split; [exact Ef|].
  cbn [valid_binary] in V. unfold bounded, canonical_mantissa in V.
  apply andb_true_iff in V as [V _]. apply Z.eqb_eq in V.
  unfold fexp, emin, prec, emax in V. lia.
Qed.

Lemma normal_pos_not_nan f m e : normal_pos f m e -> is_nan f = false.
Proof.
  intros [E _]. unfold is_nan. rewrite FloatAxioms.eqb_spec, E. unfold SFeqb. cbn [SFcompare].
  now rewrite Z.compare_refl, Pos.compare_cont_refl.
Qed.

Lemma normal_pos_is_finite f m e : normal_pos f m e -> is_finite f = true.
Proof.
  intros H. unfold is_finite. rewrite (normal_pos_not_nan f m e H).
  destruct H as [E _]. unfold is_infinity.
  rewrite FloatAxioms.eqb_spec, FloatAxioms.abs_spec, E. reflexivity.
Qed.

Lemma normal_pos_below_infinity f m e : normal_pos f m e -> (f <? infinity)%float = true.
Proof. intros [E _]. rewrite FloatAxioms.ltb_spec, E. reflexivity. Qed.

Lemma min_step_normal lowest number m e :
  normal_pos number m e ->
  Math.min_step lowest number = if (number <? lowest)%float then number else lowest.
Proof.
  intros [E D]. unfold Math.min_step. rewrite FloatAxioms.classify_spec, E.
  unfold SF64classify, SFclassify. rewrite D. reflexivity.
Qed.

Lemma one_normal : normal_pos 1%float 4503599627370496 (-52).
Proof. split; reflexivity. Qed.

Lemma F2R_one : F2R 1%float = 1.
Proof. rewrite (normal_pos_F2R _ _ _ one_normal). unfold bpow. simpl. lra. Qed.

(** [Math.min] of two positive normal numbers and 1 is one of the three and
    below each of them. *)
Lemma min_one_normal a b ma ea mb eb :
  normal_pos a ma ea -> normal_pos b mb eb ->
  exists ms es,
    normal_pos (Math.min [a; b; 1%float]) ms es /\
    (es = ea \/ es = eb \/ es = (-52)%Z) /\
    F2R (Math.min [a; b; 1%float]) <= F2R a /\
    F2R (Math.min [a; b; 1%float]) <= F2R b /\
    F2R (Math.min [a; b; 1%float]) <= 1.
Proof.
  intros Ha Hb. unfold Math.min. cbn [existsb].
  rewrite (normal_pos_not_nan _ _ _ Ha), (normal_pos_not_nan _ _ _ Hb).
  rewrite (normal_pos_not_nan _ _ _ one_normal). cbn [orb fold_left].
  rewrite (min_step_normal infinity a ma ea Ha), (normal_pos_below_infinity a ma ea Ha).
  rewrite (min_step_normal a b mb eb Hb).
  destruct (b <? a)%float eqn:Cba.
  - pose proof (ltb_true _ _ _ _ _ _ Hb Ha Cba) as Lba.
    rewrite (min_step_normal b _ _ _ one_normal).
    destruct (1 <? b)%float eqn:C1.
    + pose proof (ltb_true _ _ _ _ _ _ one_normal Hb C1) as L1. rewrite F2R_one in *.
      exists 4503599627370496%positive, (-52)%Z. split; [exact one_normal|].
      repeat split; auto; lra.
    + pose proof (ltb_false _ _ _ _ _ _ one_normal Hb C1) as L1. rewrite F2R_one in *.
      exists mb, eb. split; [exact Hb|]. repeat split; auto; lra.
  - pose proof (ltb_false _ _ _ _ _ _ Hb Ha Cba) as Lba.
    rewrite (min_step_normal a _ _ _ one_normal).
    destruct (1 <? a)%float eqn:C1.
    + pose proof (ltb_true _ _ _ _ _ _ one_normal Ha C1) as L1. rewrite F2R_one in *.
      exists 4503599627370496%positive, (-52)%Z. split; [exact one_normal|].
      repeat split; auto; lra.
    + pose proof (ltb_false _ _ _ _ _ _ one_normal Ha C1) as L1. rewrite F2R_one in *.
      exists ma, ea. split; [exact Ha|]. repeat split; auto; lra.
Qed.

(** *** The rectangle *)

Lemma unit_roundoff : 0 < bpow (-51) /\ bpow (-51) * 2251799813685248 = 1.
Proof. split; [apply bpow_pos|]. unfold bpow. simpl. lra. Qed.

(** From a relative error to two inequalities. *)
Lemma relative_bounds v t :
  Rabs (v - t) <= bpow (-51) * t -> (1 - bpow (-51)) * t <= v <= (1 + bpow (-51)) * t.
Proof.
  intros H. pose proof (Rle_abs (v - t)). pose proof (Rle_abs (- (v - t))) as N.
  rewrite Rabs_Ropp in N. lra.
Qed.

Lemma aspect_bound W H S DW DH :
  0 < W -> 0 < H -> 0 < S ->
  Rabs (DW - W * S) <= bpow (-51) * (W * S) ->
  Rabs (DH - H * S) <= bpow (-51) * (H * S) ->
  Rabs (DW / DH - W / H) <= W / H / 10 ^ 15.
Proof.
  intros PW PH PS VW VH.
  destruct unit_roundoff as [Pu Eu]. set (u := bpow (-51)) in *.
  apply relative_bounds in VW, VH. fold u in VW, VH.
  assert (u <= / 2000000000000000) as Su.
  { apply (Rmult_le_reg_r 2251799813685248); [lra|]. rewrite Eu. lra. }
  assert (0 < W * S) as PWS by nra. assert (0 < H * S) as PHS by nra.
  assert (0 < DH) as PDH by nra.
  set (rho := W / H). assert (rho * H = W) as Er by (unfold rho; field; lra).
  assert (0 < rho) as Pr by (unfold rho; apply Rdiv_lt_0_compat; assumption).
  assert (rho * (H * S) = W * S) as Ers by (rewrite <- Rmult_assoc, Er; reflexivity).
  set (WS := W * S) in *. set (HS := H * S) in *.
  replace (rho / 10 ^ 15) with (rho * / 1000000000000000) by (simpl; field).
  apply Rabs_le. split.
  - assert (rho * (1 - / 1000000000000000) <= DW / DH); [|lra].
    apply Rdiv_lower; [assumption|].
    assert (rho * DH <= (1 + u) * WS) by nra.
    assert ((1 + u) * (1 - / 1000000000000000) <= 1 - u) by nra.
    nra.
  - assert (DW / DH <= rho * (1 + / 1000000000000000)); [|lra].
    apply Rdiv_upper; [assumption|].
    assert ((1 - u) * WS <= rho * DH) by nra.
    assert (1 + u <= (1 - u) * (1 + / 1000000000000000)) by nra.
    nra.
Qed.

Lemma maxWidth_normal : normal_pos maxWidth 4602819556661002 (-43).
Proof. split; vm_compute; reflexivity. Qed.
Lemma maxHeight_normal : normal_pos maxHeight 6772024056867717 (-43).
Proof. split; vm_compute; reflexivity. Qed.
Lemma a4Width_normal : normal_pos a4Width 5236138254259978 (-43).
Proof. split; vm_compute; reflexivity. Qed.
Lemma a4Height_normal : normal_pos a4Height 7405342754466693 (-43).
Proof. split; vm_compute; reflexivity. Qed.
Lemma two_normal : normal_pos 2%float 4503599627370496 (-51).
Proof. split; vm_compute; reflexivity. Qed.
Lemma largest_normal : normal_pos 2147483647%float 9007199250546688 (-22).
Proof. split; vm_compute; reflexivity. Qed.

Lemma F2R_two : F2R 2%float = 2.
Proof. rewrite (normal_pos_F2R _ _ _ two_normal). unfold bpow. simpl. lra. Qed.

(** One axis of the page: the size drawn and the offset that centers it. *)
Lemma axis_on_page page maxSize d s mp mm md ed ms es :
  normal_pos page mp (-43) -> normal_pos maxSize mm (-43) ->
  F2R maxSize * 1003 <= F2R page * 1000 ->
  normal_pos d md ed -> (-52 <= ed <= -22)%Z ->
  normal_pos s ms es -> (-74 <= es <= -42)%Z ->
  F2R s <= F2R (maxSize / d)%float ->
  exists mo eo mz ez,
    normal_pos (d * s)%float mz ez /\
    normal_pos ((page - d * s) / 2)%float mo eo /\
    Rabs (F2R (d * s)%float - F2R d * F2R s) <= bpow (-51) * (F2R d * F2R s) /\
    F2R ((page - d * s) / 2)%float + F2R (d * s)%float <= F2R page.
Proof.
  intros Np Nm Room Nd Rd Ns Rs Ss.
  destruct unit_roundoff as [Pu Eu]. set (u := bpow (-51)) in *.
  assert (u <= / 1000000) as Su.
  { apply (Rmult_le_reg_r 2251799813685248); [lra|]. rewrite Eu. lra. }
  pose proof (normal_pos_positive _ _ _ Nd) as Pd.
  pose proof (normal_pos_positive _ _ _ Ns) as Ps.
  pose proof (normal_pos_positive _ _ _ Nm) as Pm.
  pose proof (normal_pos_positive _ _ _ Np) as Pp.
  (* the quotient *)
  destruct (div_correct maxSize d _ _ _ _ Nm Nd) as (mq & eq & Nq & Rq & Vq); try lia.
  apply relative_bounds in Vq. fold u in Vq.
  set (Q := F2R maxSize / F2R d) in *.
  assert (Q * F2R d = F2R maxSize) as EQ by (unfold Q; field; lra).
  assert (0 < Q) as PQ by (unfold Q; apply Rdiv_lt_0_compat; assumption).
  (* the size drawn *)
  destruct (mul_correct d s _ _ _ _ Nd Ns) as (mz & ez & Nz & Rz & Vz); try lia.
  pose proof Vz as Vz'. apply relative_bounds in Vz'. fold u in Vz'.
  set (DS := F2R (d * s)%float) in *.
  assert (F2R d * F2R s <= (1 + u) * F2R maxSize) as B1 by nra.
  assert (DS <= (1 + u) * ((1 + u) * F2R maxSize)) as B2 by nra.
  assert (DS < F2R page) as B3 by nra.
  (* the offset *)
  destruct (sub_correct page (d * s)%float _ _ _ _ Np Nz B3) as (mt & et & Nt & Rt & Vt);
    try lia.
  apply relative_bounds in Vt. fold u in Vt. fold DS in Vt.
  destruct (div_correct (page - d * s)%float 2%float _ _ _ _ Nt two_normal)
    as (mo & eo & No & Ro & Vo); try lia.
  apply relative_bounds in Vo. fold u in Vo. rewrite F2R_two in Vo.
  exists mo, eo, mz, ez. split; [exact Nz|]. split; [exact No|]. split; [exact Vz|].
  fold DS. set (T := F2R (page - d * s)%float) in *.
  set (X := F2R ((page - d * s) / 2)%float) in *.
  assert (0 < F2R page - DS) by lra.
  assert (X <= (1 + u) * ((1 + u) * (F2R page - DS)) / 2) by nra.
  nra.
Qed.

Lemma room_width : F2R maxWidth * 1003 <= F2R a4Width * 1000.
Proof.
  rewrite (normal_pos_F2R _ _ _ maxWidth_normal), (normal_pos_F2R _ _ _ a4Width_normal).
  pose proof (bpow_pos (-43)). nra.
Qed.

Lemma room_height : F2R maxHeight * 1003 <= F2R a4Height * 1000.
Proof.
  rewrite (normal_pos_F2R _ _ _ maxHeight_normal), (normal_pos_F2R _ _ _ a4Height_normal).
  pose proof (bpow_pos (-43)). nra.
Qed.

(** *** Rounding never passes a representable number *)

(** Shifting out zero bits loses nothing. *)
Lemma shr_1_exact mrs c :
  shr_r mrs = false -> shr_s mrs = false -> shr_m mrs = (2 * c)%Z -> (0 <= c)%Z ->
  shr_r (shr_1 mrs) = false /\ shr_s (shr_1 mrs) = false /\ shr_m (shr_1 mrs) = c.
Proof.
  destruct mrs as [m r s]. cbn [shr_r shr_s shr_m]. intros -> -> -> Hc.
  destruct c as [|c|c]; try lia; cbn; auto.
Qed.

Lemma iter_pos_shr_1_exact p : forall mrs c,
  shr_r mrs = false -> shr_s mrs = false ->
  shr_m mrs = (c * 2 ^ Z.pos p)%Z -> (0 <= c)%Z ->
  shr_r (SpecFloat.iter_pos shr_1 p mrs) = false /\
  shr_s (SpecFloat.iter_pos shr_1 p mrs) = false /\
  shr_m (SpecFloat.iter_pos shr_1 p mrs) = c.
Proof.
  induction p as [p IH|p IH|]; intros mrs c Hr Hs Hm Hc; cbn [SpecFloat.iter_pos].
  - pose proof (pow2_pos (Z.pos p) ltac:(lia)) as P.
    rewrite pow2_xI in Hm.
    destruct (shr_1_exact mrs (c * 2 ^ Z.pos p * 2 ^ Z.pos p)) as (R1 & S1 & M1);
      try assumption; try nia.
    destruct (IH (shr_1 mrs) (c * 2 ^ Z.pos p)%Z) as (R2 & S2 & M2);
      try assumption; try nia.
    apply IH; assumption.
  - pose proof (pow2_pos (Z.pos p) ltac:(lia)) as P.
    rewrite pow2_xO in Hm.
    destruct (IH mrs (c * 2 ^ Z.pos p)%Z) as (R2 & S2 & M2);
      try assumption; try nia.
    apply IH; assumption.
  - apply shr_1_exact; try assumption. rewrite Hm. change (2 ^ 1)%Z with 2%Z. lia.
Qed.

(** With nothing lost to the shift, rounding keeps the mantissa. *)
Lemma shr_fexp_exact mp e c :
  let d := Z.pos (digits2_pos mp) in
  (53 <= d)%Z -> (-1074 <= d + e - 53)%Z ->
  Z.pos mp = (c * 2 ^ (d - 53))%Z ->
  loc_of_shr_record (fst (shr_fexp prec emax (Z.pos mp) e loc_Exact)) = loc_Exact.
Proof.
  intros d Hd He Hc. unfold shr_fexp. cbn [Zdigits2]. fold d.
  rewrite fexp_normal by lia.
  replace (d + e - 53 - e)%Z with (d - 53)%Z by lia.
  unfold shr. destruct (d - 53)%Z as [|p|p] eqn:E; try lia.
  - reflexivity.
  - cbn [fst].
    assert (0 <= c)%Z as Pc.
    { pose proof (pow2_pos (Z.pos p) ltac:(lia)). nia. }
    destruct (iter_pos_shr_1_exact p (shr_record_of_loc (Z.pos mp) loc_Exact) c)
      as (R & S & _); try reflexivity; try assumption.
    destruct (SpecFloat.iter_pos shr_1 p (shr_record_of_loc (Z.pos mp) loc_Exact))
      as [m r s]. cbn in R, S. subst. reflexivity.
Qed.

Lemma binary_round_aux_below sx mx ex mg g :
  let d := Z.pos (digits2_pos mx) in
  (53 <= d)%Z -> (-1074 <= d + ex - 53)%Z -> (d + ex - 52 <= 971)%Z ->
  (4503599627370496 <= Z.pos mg < 9007199254740992)%Z ->
  IZR (Z.pos mx) * bpow ex <= IZR (Z.pos mg) * bpow g ->
  exists m e,
    binary_round_aux prec emax sx (Z.pos mx) ex loc_Exact = S754_finite sx m e /\
    IZR (Z.pos m) * bpow e <= IZR (Z.pos mg) * bpow g.
Proof.
  intros d Hd Hlo Hhi Bg Ht. unfold binary_round_aux.
  destruct (shr_fexp_spec mx ex loc_Exact Hd Hlo) as [E1 M1]. fold d in E1, M1.
  pose proof (shr_fexp_exact mx ex (Z.pos mx / 2 ^ (d - 53)) Hd Hlo) as Exact.
  fold d in Exact.
  destruct (shr_fexp prec emax (Z.pos mx) ex loc_Exact) as [mrs' e'].
  cbn [fst snd] in E1, M1, Exact.
  pose proof (digits2_pos_spec mx) as Dm. fold d in Dm.
  pose proof (top_bits (Z.pos mx) d Hd Dm) as T1. rewrite <- M1 in T1.
  set (r := round_nearest_even (shr_m mrs') (loc_of_shr_record mrs')).
  pose proof (round_nearest_even_spec (shr_m mrs') (loc_of_shr_record mrs')) as Rr.
  fold r in Rr.
  assert (Hr : r = round_nearest_even (shr_m mrs') (loc_of_shr_record mrs')) by reflexivity.
  destruct r as [|rp|rp] eqn:Er; try lia.
  assert (2 ^ 52 <= Z.pos rp < 2 ^ 54)%Z as Brp.
  { change (2 ^ 53)%Z with 9007199254740992%Z in T1.
    change (2 ^ 54)%Z with 18014398509481984%Z. lia. }
  pose proof (digits_53_54 rp Brp) as Hd2.
  set (d2 := Z.pos (digits2_pos rp)) in *.
  destruct (shr_fexp_spec rp e' loc_Exact) as [E2 M2]; fold d2; try lia.
  fold d2 in E2, M2.
  destruct (shr_fexp prec emax (Z.pos rp) e' loc_Exact) as [mrs'' e''].
  cbn [fst snd] in E2, M2.
  pose proof (digits2_pos_spec rp) as D2. fold d2 in D2.
  pose proof (top_bits (Z.pos rp) d2 ltac:(lia) D2) as T2. rewrite <- M2 in T2.
  destruct (shr_m mrs'') as [|m|m] eqn:Em; try lia.
  replace (e'' <=? emax - prec)%Z with true
    by (symmetry; apply Z.leb_le; unfold emax, prec; lia).
  exists m, e''. split; [reflexivity|].
  (* the value is at most r * 2^e' *)
  set (n := (d - 53)%Z) in *.
  assert (0 <= n)%Z as Hn by (unfold n; lia).
  pose proof (pow2_pos n Hn) as Pn.
  set (u := bpow e').
  assert (0 < u) as Pu by apply bpow_pos.
  assert (IZR (Z.pos m) * bpow e'' <= IZR (Z.pos rp) * u) as V1.
  { set (n2 := (d2 - 53)%Z) in *.
    assert (0 <= n2)%Z as Hn2 by (unfold n2; lia).
    pose proof (pow2_pos n2 Hn2) as Pn2.
    replace e'' with (n2 + e')%Z by (unfold n2; lia).
    rewrite bpow_add, (bpow_IZR n2 Hn2). fold u.
    assert (Z.pos m * 2 ^ n2 <= Z.pos rp)%Z as L.
    { rewrite M2. rewrite Z.mul_comm. apply Z.mul_div_le. lia. }
    apply IZR_le in L. rewrite mult_IZR in L. nra. }
  assert (bpow ex * IZR (2 ^ n) = u) as Eu.
  { unfold u. rewrite E1. replace (d + ex - 53)%Z with (ex + n)%Z by (unfold n; lia).
    rewrite bpow_add. now rewrite (bpow_IZR n Hn). }
  pose proof (Z.div_mod (Z.pos mx) (2 ^ n) ltac:(lia)) as Dv. rewrite <- M1 in Dv.
  pose proof (Z.mod_pos_bound (Z.pos mx) (2 ^ n) Pn) as Bn.
  destruct (Z.eq_dec (Z.pos mx mod 2 ^ n) 0) as [Z0|NZ].
  - (* nothing is lost: the mantissa is kept *)
    assert (loc_of_shr_record mrs' = loc_Exact) as LE.
    { apply Exact. rewrite Z0 in Dv. rewrite <- M1. lia. }
    rewrite LE in Hr. cbn [round_nearest_even] in Hr.
    assert (IZR (Z.pos rp) * u = IZR (Z.pos mx) * bpow ex) as Same; [|lra].
    rewrite Hr, <- Eu.
    replace (IZR (Z.pos mx)) with (IZR (2 ^ n) * IZR (shr_m mrs'))
      by (rewrite <- mult_IZR; f_equal; lia).
    ring.
  - (* something is lost: the next multiple of 2^e' is still at most G *)
    assert (IZR (shr_m mrs') * u < IZR (Z.pos mg) * bpow g) as Lt.
    { assert (IZR (shr_m mrs') * IZR (2 ^ n) < IZR (Z.pos mx)) as A1
        by (rewrite <- mult_IZR; apply IZR_lt; lia).
      pose proof (bpow_pos ex). rewrite <- Eu. nra. }
    assert (e' <= g)%Z as Le.
    { destruct (Z_lt_le_dec g e') as [C|C]; [exfalso|assumption].
      assert (bpow (g + 1) <= u) as B by (apply bpow_le; lia).
      rewrite bpow_add, bpow_1 in B. pose proof (bpow_pos g).
      assert (IZR (Z.pos mg) < 9007199254740992) by (apply IZR_lt; lia).
      assert (4503599627370496 <= IZR (shr_m mrs'))
        by (apply IZR_le; change 4503599627370496%Z with (2 ^ 52)%Z; lia).
      nra. }
    pose proof (aligned_value mg g e' Le) as AV. change (bpow e') with u in AV.
    rewrite <- AV in Lt. rewrite <- AV.
    assert (shr_m mrs' < Z.pos mg * 2 ^ (g - e'))%Z as LtZ.
    { apply lt_IZR. nra. }
    assert (IZR (Z.pos rp) <= IZR (Z.pos mg * 2 ^ (g - e'))) by (apply IZR_le; lia).
    nra.
Qed.

(** A product by a number of at most 1 is not above the other factor. *)
Lemma mul_below x s mx ex ms es :
  normal_pos x mx ex -> normal_pos s ms es ->
  (-1074 <= ex + es + 52)%Z -> (ex + es + 54 <= 971)%Z ->
  F2R s <= 1 ->
  F2R (x * s) <= F2R x.
Proof.
  intros Hx Hs Hlo Hhi S1.
  pose proof (normal_pos_mantissa _ _ _ Hx) as Bx.
  pose proof (normal_pos_mantissa _ _ _ Hs) as Bs.
  pose proof (normal_pos_positive _ _ _ Hx) as Px.
  rewrite (normal_pos_F2R _ _ _ Hx) in *. rewrite (normal_pos_F2R _ _ _ Hs) in S1.
  destruct Hx as [Ex _], Hs as [Es _].
  assert (Prim2SF (x * s) =
          binary_round_aux prec emax false (Z.pos (mx * ms)) (ex + es) loc_Exact) as E
    by (rewrite FloatAxioms.mul_spec; unfold SF64mul; rewrite Ex, Es; reflexivity).
  set (d := Z.pos (digits2_pos (mx * ms))).
  assert (105 <= d <= 106)%Z as Hd.
  { pose proof (digits2_pos_spec (mx * ms)) as D. fold d in D.
    rewrite Pos2Z.inj_mul in D.
    assert (2 ^ 104 <= Z.pos mx * Z.pos ms < 2 ^ 106)%Z as P.
    { change (2 ^ 104)%Z with (4503599627370496 * 4503599627370496)%Z.
      change (2 ^ 106)%Z with (9007199254740992 * 9007199254740992)%Z. nia. }
    assert (d < 107)%Z.
    { destruct (Z_lt_le_dec d 107); [assumption|].
      assert (2 ^ 106 <= 2 ^ (d - 1))%Z by (apply Z.pow_le_mono_r; lia). lia. }
    assert (104 < d)%Z.
    { destruct (Z_lt_le_dec 104 d); [assumption|].
      assert (2 ^ d <= 2 ^ 104)%Z by (apply Z.pow_le_mono_r; lia). lia. }
    lia. }
  destruct (binary_round_aux_below false (mx * ms) (ex + es) mx ex)
    as (m & e & Er & Ve); fold d; try lia.
  { rewrite Pos2Z.inj_mul, mult_IZR, bpow_add.
    pose proof (bpow_pos ex). pose proof (bpow_pos es).
    assert (0 < IZR (Z.pos mx)) by (apply IZR_lt; lia).
    assert (0 < IZR (Z.pos mx) * bpow ex) by nra. nra. }
  unfold F2R at 1. rewrite E, Er.
  replace (1 * (IZR (Z.pos m) * bpow e)) with (IZR (Z.pos m) * bpow e) by lra.
  exact Ve.
Qed.

(** The sizes drawn are at most the sizes of the source. *)
Lemma drawn_not_larger (w h : float) :
  (1 <=? w)%float = true -> (w <=? 2147483647)%float = true ->
  (1 <=? h)%float = true -> (h <=? 2147483647)%float = true ->
  F2R (w * scale w h) <= F2R w /\ F2R (h * scale w h) <= F2R h.
Proof.
  intros W1 W2 H1 H2.
  destruct (between_normal _ _ w _ _ _ _ one_normal largest_normal ltac:(lia) W1 W2)
    as (mw & ew & Nw & Rw).
  destruct (between_normal _ _ h _ _ _ _ one_normal largest_normal ltac:(lia) H1 H2)
    as (mh & eh & Nh & Rh).
  destruct (div_correct maxWidth w _ _ _ _ maxWidth_normal Nw)
    as (ma & ea & Na & Ra & _); try lia.
  destruct (div_correct maxHeight h _ _ _ _ maxHeight_normal Nh)
    as (mb & eb & Nb & Rb & _); try lia.
  destruct (min_one_normal _ _ _ _ _ _ Na Nb) as (ms & es & Ns & Es & _ & _ & S1).
  fold (scale w h) in Ns, S1.
  split; eapply mul_below; eauto; lia.
Qed.

End Binary64Reals.

(** ** The page fitter on examples *)

Example layout_640_180 :
  exportPdfFromPngDataUrl_layout 640 180
  = Normal (mkPageLayout 36 347.35874999999999 523.27999999999997 147.17249999999999).
Proof. vm_compute. reflexivity. Qed.

Example layout_100_50 :
  exportPdfFromPngDataUrl_layout 100 50
  = Normal (mkPageLayout 247.63999999999999 395.94499999999999 100 50).
Proof. vm_compute. reflexivity. Qed.

Example layout_0_180 :
  exportPdfFromPngDataUrl_layout 0 180
  = Normal (mkPageLayout 297.63999999999999 330.94499999999999 0 180).
Proof. vm_compute. reflexivity. Qed.

(** ** The page fitter's claims *)

Section PageFitterClaims.

Local Open Scope float_scope.

(** C6, as the code has it: a source dimension of zero signals nothing.  With
    dimensions that are zero or above and one of them zero, the statements
    complete normally with a rectangle whose size in that dimension is 0. *)
Theorem zero_dimension_draws_nothing (w h : float) :
  w = 0 \/ (0 <? w) = true ->
  h = 0 \/ (0 <? h) = true ->
  w = 0 \/ h = 0 ->
  exists l,
    exportPdfFromPngDataUrl_layout w h = Normal l /\
    (forall e, exportPdfFromPngDataUrl_layout w h <> Throw e) /\
    (w = 0 -> drawWidth l = 0) /\
    (h = 0 -> drawHeight l = 0).
Proof.
  intros Hw Hh _. unfold exportPdfFromPngDataUrl_layout. cbv zeta.
  destruct (scale_unit w h Hw Hh) as (Hn & Hf & _ & _).
  eexists. split; [reflexivity|]. split; [discriminate|].
  cbn [drawWidth drawHeight].
  split; intros ->; now apply zero_mul.
Qed.

Lemma zero_dimension_draws_nothing_witness :
  exists l,
    exportPdfFromPngDataUrl_layout 0 180 = Normal l /\
    (forall e, exportPdfFromPngDataUrl_layout 0 180 <> Throw e) /\
    (0 = 0 -> drawWidth l = 0) /\
    (180 = 0 -> drawHeight l = 0).
Proof.
  apply (zero_dimension_draws_nothing 0 180).
  - left. reflexivity.
  - right. vm_compute. reflexivity.
  - left. reflexivity.
Defined.

(** C6, as stated, fails: a source of width 0 and height 180 is not refused;
    the rectangle has width 0 and height 180. *)
Lemma zero_width_is_not_refused :
  ~ (exists e, exportPdfFromPngDataUrl_layout 0 180 = Throw e) /\
  exportPdfFromPngDataUrl_layout 0 180
  = Normal (mkPageLayout 297.63999999999999 330.94499999999999 0 180).
Proof.
  split.
  - intros [e H]. vm_compute in H. discriminate H.
  - vm_compute. reflexivity.
Qed.

Section LayoutOnPage.

Local Open Scope R_scope.

(** C7, on binary64 numbers: for source dimensions from 1 to 2147483647 (the
    pixel dimensions of a PNG) the rectangle has finite positive coordinates
    and sizes, lies on the page ([x + drawWidth <= a4Width],
    [y + drawHeight <= a4Height], as real numbers), and has the aspect ratio
    of the source within a relative error of 10^-15. *)
Theorem layout_on_page (w h : float) :
  (1 <=? w)%float = true -> (w <=? 2147483647)%float = true ->
  (1 <=? h)%float = true -> (h <=? 2147483647)%float = true ->
  exists l,
    exportPdfFromPngDataUrl_layout w h = Normal l /\
    is_finite (x l) = true /\ is_finite (y l) = true /\
    is_finite (drawWidth l) = true /\ is_finite (drawHeight l) = true /\
    0 < F2R (x l) /\ 0 < F2R (y l) /\
    0 < F2R (drawWidth l) /\ 0 < F2R (drawHeight l) /\
    F2R (x l) + F2R (drawWidth l) <= F2R a4Width /\
    F2R (y l) + F2R (drawHeight l) <= F2R a4Height /\
    Rabs (F2R (drawWidth l) / F2R (drawHeight l) - F2R w / F2R h)
    <= F2R w / F2R h / 10 ^ 15.
Proof.
  intros W1 W2 H1 H2.
  destruct (between_normal _ _ w _ _ _ _ one_normal largest_normal ltac:(lia) W1 W2)
    as (mw & ew & Nw & Rw).
  destruct (between_normal _ _ h _ _ _ _ one_normal largest_normal ltac:(lia) H1 H2)
    as (mh & eh & Nh & Rh).
  destruct (div_correct maxWidth w _ _ _ _ maxWidth_normal Nw)
    as (ma & ea & Na & Ra & _); try lia.
  destruct (div_correct maxHeight h _ _ _ _ maxHeight_normal Nh)
    as (mb & eb & Nb & Rb & _); try lia.
  destruct (min_one_normal _ _ _ _ _ _ Na Nb) as (ms & es & Ns & Es & Sa & Sb & _).
  fold (scale w h) in Ns, Sa, Sb.
  assert (-74 <= es <= -42)%Z as Rs by lia.
  destruct (axis_on_page a4Width maxWidth w (scale w h) _ _ _ _ _ _
              a4Width_normal maxWidth_normal room_width Nw Rw Ns Rs Sa)
    as (mx & ex & mdw & edw & Ndw & Nx & Vw & Cw).
  destruct (axis_on_page a4Height maxHeight h (scale w h) _ _ _ _ _ _
              a4Height_normal maxHeight_normal room_height Nh Rh Ns Rs Sb)
    as (my & ey & mdh & edh & Ndh & Ny & Vh & Ch).
  eexists. split; [reflexivity|]. cbn [x y drawWidth drawHeight].
  repeat split;
    eauto using normal_pos_is_finite, normal_pos_positive.
  apply (aspect_bound _ _ (F2R (scale w h)));
    eauto using normal_pos_positive.
Qed.

Lemma layout_on_page_witness :
  exists l,
    exportPdfFromPngDataUrl_layout 640 180 = Normal l /\
    is_finite (x l) = true /\ is_finite (y l) = true /\
    is_finite (drawWidth l) = true /\ is_finite (drawHeight l) = true /\
    0 < F2R (x l) /\ 0 < F2R (y l) /\
    0 < F2R (drawWidth l) /\ 0 < F2R (drawHeight l) /\
    F2R (x l) + F2R (drawWidth l) <= F2R a4Width /\
    F2R (y l) + F2R (drawHeight l) <= F2R a4Height /\
    Rabs (F2R (drawWidth l) / F2R (drawHeight l) - F2R 640%float / F2R 180%float)
    <= F2R 640%float / F2R 180%float / 10 ^ 15.
Proof. apply (layout_on_page 640 180); reflexivity. Defined.

(** C7, as stated, fails on binary64 numbers: for a 640 by 180 source the
    quotient of the drawn sizes is not the quotient of the source sizes; and
    outside the range of pixel dimensions, for a 1e308 by 1e-308 source, the
    height drawn is 0. *)
Lemma aspect_ratio_is_rounded :
  (exists l,
      exportPdfFromPngDataUrl_layout 640 180 = Normal l /\
      (drawWidth l / drawHeight l =? 640 / 180)%float = false /\
      (drawWidth l / drawHeight l)%float = 3.5555555555555558%float /\
      (640 / 180)%float = 3.5555555555555554%float) /\
  (exists l,
      exportPdfFromPngDataUrl_layout 1e308 1e-308 = Normal l /\
      (0 <? 1e-308)%float = true /\ drawHeight l = 0%float).
Proof. split; eexists; repeat split; vm_compute; reflexivity. Qed.

End LayoutOnPage.

(** C8, with the figures the code reaches: the statements compute [fit] on
    the A4 page with margin 36, and for a 640 by 180 source the rectangle is
    within 0.001 of width 523.28, height 147.1725, x 36 and y 347.35875; the
    two-decimal figures 147.17 and 347.36 are within 0.005. *)
Theorem layout_is_fit :
  (forall w h : float,
      exportPdfFromPngDataUrl_layout w h = Normal (fit a4Width a4Height margin w h)) /\
  a4Width = 595.28 /\ a4Height = 841.89 /\ margin = 36 /\
  all_within 0.001 (fit 595.28 841.89 36 640 180) 36.0 347.35875 523.28 147.1725 = true /\
  all_within 0.005 (fit 595.28 841.89 36 640 180) 36.0 347.36 523.28 147.17 = true.
Proof.
  split; [intros; reflexivity|].
  repeat split; vm_compute; reflexivity.
Qed.

(** C8, as stated, fails: the height 147.17 and the y 347.36 of the
    specification are further than 0.001 from what is computed. *)
Lemma stated_figures_beyond_tolerance :
  all_within 0.001 (fit 595.28 841.89 36 640 180) 36.0 347.36 523.28 147.17 = false /\
  within 0.001 (drawHeight (fit 595.28 841.89 36 640 180)) 147.17 = false /\
  within 0.001 (y (fit 595.28 841.89 36 640 180)) 347.36 = false /\
  exportPdfFromPngDataUrl_layout 640 180 = Normal (fit 595.28 841.89 36 640 180).
Proof. repeat split; vm_compute; reflexivity. Qed.

(** C9.  The scale is never above 1, whatever the source dimensions; for
    positive dimensions it is a number from 0 to 1, and for the dimensions of
    a PNG the sizes drawn are at most those of the source.  A 100 by 50 image
    gets scale 1, is drawn 100 by 50, and is centered: the margins left and
    right are equal, and so are those above and below. *)
Theorem scale_never_exceeds_one :
  (forall w h : float, (1 <? scale w h) = false) /\
  (forall w h : float,
      (0 <? w) = true -> (0 <? h) = true ->
      (0 <=? scale w h) = true /\ (scale w h <=? 1) = true) /\
  (forall w h : float,
      (1 <=? w) = true -> (w <=? 2147483647) = true ->
      (1 <=? h) = true -> (h <=? 2147483647) = true ->
      exists l,
        exportPdfFromPngDataUrl_layout w h = Normal l /\
        (F2R (drawWidth l) <= F2R w)%R /\ (F2R (drawHeight l) <= F2R h)%R) /\
  scale 100 50 = 1 /\
  exportPdfFromPngDataUrl_layout 100 50
  = Normal (mkPageLayout ((a4Width - 100) / 2) ((a4Height - 50) / 2) 100 50) /\
  a4Width - ((a4Width - 100) / 2 + 100) = (a4Width - 100) / 2 /\
  a4Height - ((a4Height - 50) / 2 + 50) = (a4Height - 50) / 2.
Proof.
  split; [|split; [|split]].
  - intros w h. apply min_one_not_above.
  - intros w h Hw Hh.
    destruct (scale_unit w h (or_intror Hw) (or_intror Hh)) as (_ & _ & H0 & H1).
    now split.
  - intros w h W1 W2 H1 H2. eexists. split; [reflexivity|].
    now apply drawn_not_larger.
  - repeat split; vm_compute; reflexivity.
Qed.

Lemma scale_never_exceeds_one_witness :
  (0 <=? scale 100 50) = true /\ (scale 100 50 <=? 1) = true.
Proof.
  apply (proj1 (proj2 scale_never_exceeds_one) 100 50); vm_compute; reflexivity.
Defined.

End PageFitterClaims.

(** * Further properties of the code *)

(** ** Strings and their replacements, character by character *)

Section Escaping.

Lemma append_assoc (a b c : string) : (a ++ b) ++ c = a ++ (b ++ c).
Proof. induction a as [|x a IH]; simpl; [reflexivity | now rewrite IH]. Qed.

Lemma append_empty_r (a : string) : a ++ "" = a.
Proof. induction a as [|x a IH]; simpl; [reflexivity | now rewrite IH]. Qed.

Lemma replace_all_app c r a b :
  replace_all c r (a ++ b) = replace_all c r a ++ replace_all c r b.
Proof.
  induction a as [|x a IH]; simpl; [reflexivity|].
  rewrite IH. destruct (Ascii.eqb x c); [now rewrite append_assoc | reflexivity].
Qed.

Lemma escapeHtml_app a b : escapeHtml (a ++ b) = escapeHtml a ++ escapeHtml b.
Proof. unfold escapeHtml. now rewrite !replace_all_app. Qed.

Lemma jsStringEscape_app a b :
  jsStringEscape (a ++ b) = jsStringEscape a ++ jsStringEscape b.
Proof. unfold jsStringEscape. now rewrite !replace_all_app. Qed.

Lemma escapeHtml_one c : escapeHtml (String c "") = escapeHtml_char c.
Proof.
  unfold escapeHtml_char.
  destruct (Ascii.eqb_spec c "&") as [->|N1]; [reflexivity|].
  destruct (Ascii.eqb_spec c "<") as [->|N2]; [reflexivity|].
  destruct (Ascii.eqb_spec c ">") as [->|N3]; [reflexivity|].
  destruct (Ascii.eqb_spec c double_quote) as [->|N4]; [reflexivity|].
  destruct (Ascii.eqb_spec c "'") as [->|N5]; [reflexivity|].
  apply Ascii.eqb_neq in N1, N2, N3, N4, N5.
  unfold escapeHtml. cbn [replace_all].
  rewrite N1. cbn [replace_all]. rewrite N2. cbn [replace_all].
  rewrite N3. cbn [replace_all]. rewrite N4. cbn [replace_all].
  now rewrite N5.
Qed.

Lemma jsStringEscape_one c : jsStringEscape (String c "") = jsStringEscape_char c.
Proof.
  unfold jsStringEscape_char.
  destruct (Ascii.eqb_spec c backslash) as [->|N1]; [reflexivity|].
  destruct (Ascii.eqb_spec c "'") as [->|N2]; [reflexivity|].
  destruct (Ascii.eqb_spec c line_feed) as [->|N3]; [reflexivity|].
  destruct (Ascii.eqb_spec c carriage_return) as [->|N4]; [reflexivity|].
  apply Ascii.eqb_neq in N1, N2, N3, N4.
  unfold jsStringEscape. cbn [replace_all].
  rewrite N1. cbn [replace_all]. rewrite N2. cbn [replace_all].
  rewrite N3. cbn [replace_all]. now rewrite N4.
Qed.

Lemma escapeHtml_cons c s : escapeHtml (String c s) = escapeHtml_char c ++ escapeHtml s.
Proof.
  change (String c s) with (String c "" ++ s).
  now rewrite escapeHtml_app, escapeHtml_one.
Qed.

Lemma jsStringEscape_cons c s :
  jsStringEscape (String c s) = jsStringEscape_char c ++ jsStringEscape s.
Proof.
  change (String c s) with (String c "" ++ s).
  now rewrite jsStringEscape_app, jsStringEscape_one.
Qed.

(** What one character becomes. *)
Lemma escapeHtml_char_cases c :
  (c = "&"%char /\ escapeHtml_char c = "&amp;") \/
  (c = "<"%char /\ escapeHtml_char c = "&lt;") \/
  (c = ">"%char /\ escapeHtml_char c = "&gt;") \/
  (c = double_quote /\ escapeHtml_char c = "&quot;") \/
  (c = "'"%char /\ escapeHtml_char c = "&#39;") \/
  (html_special c = false /\ escapeHtml_char c = String c "").
Proof.
  unfold escapeHtml_char, html_special.
  destruct (Ascii.eqb_spec c "&"); [auto|].
  destruct (Ascii.eqb_spec c "<"); [auto|].
  destruct (Ascii.eqb_spec c ">"); [auto 6|].
  destruct (Ascii.eqb_spec c double_quote); [auto 6|].
  destruct (Ascii.eqb_spec c "'"); [auto 8|].
  do 5 right. split; reflexivity.
Qed.

Lemma jsStringEscape_char_cases c :
  (c = backslash /\ jsStringEscape_char c = String backslash (String backslash "")) \/
  (c = "'"%char /\ jsStringEscape_char c = String backslash "'") \/
  (c = line_feed /\ jsStringEscape_char c = String backslash "n") \/
  (c = carriage_return /\ jsStringEscape_char c = String backslash "r") \/
  (js_special c = false /\ jsStringEscape_char c = String c "").
Proof.
  unfold jsStringEscape_char, js_special.
  destruct (Ascii.eqb_spec c backslash); [auto|].
  destruct (Ascii.eqb_spec c "'"); [auto|].
  destruct (Ascii.eqb_spec c line_feed); [auto 6|].
  destruct (Ascii.eqb_spec c carriage_return); [auto 6|].
  do 4 right. split; reflexivity.
Qed.

Lemma append_is_empty a b : a ++ b = "" -> a = "" /\ b = "".
Proof. destruct a; simpl; [auto | discriminate]. Qed.

(** A code of which no word begins another can be read back. *)
Lemma coded_injective (g : string -> string) (f : ascii -> string) :
  g "" = "" ->
  (forall c s, g (String c s) = f c ++ g s) ->
  (forall c, f c <> "") ->
  (forall c1 c2 r1 r2, f c1 ++ r1 = f c2 ++ r2 -> c1 = c2 /\ r1 = r2) ->
  forall s1 s2, g s1 = g s2 -> s1 = s2.
Proof.
  intros G0 GS Hne Hpf.
  induction s1 as [|c1 s1 IH]; intros [|c2 s2]; rewrite ?G0, ?GS; intros E.
  - reflexivity.
  - symmetry in E. apply append_is_empty in E as [E _]. now apply Hne in E.
  - apply append_is_empty in E as [E _]. now apply Hne in E.
  - apply Hpf in E as [-> E]. f_equal. now apply IH.
Qed.

Lemma html_special_amp c : html_special c = false -> c <> "&"%char.
Proof. intros H ->. discriminate H. Qed.

Lemma escapeHtml_char_prefix_free c1 c2 r1 r2 :
  escapeHtml_char c1 ++ r1 = escapeHtml_char c2 ++ r2 -> c1 = c2 /\ r1 = r2.
Proof.
  destruct (escapeHtml_char_cases c1) as [[-> ->]|[[-> ->]|[[-> ->]|[[-> ->]|[[-> ->]|[S1 ->]]]]]];
  destruct (escapeHtml_char_cases c2) as [[-> ->]|[[-> ->]|[[-> ->]|[[-> ->]|[[-> ->]|[S2 ->]]]]]];
  simpl; intros E; try discriminate E;
  try (injection E as E; split; [reflexivity | assumption]);
  try (injection E as E1 E2; subst; discriminate);
  try (injection E as E1 E2; subst; split; reflexivity).
Qed.

Lemma jsStringEscape_char_prefix_free c1 c2 r1 r2 :
  jsStringEscape_char c1 ++ r1 = jsStringEscape_char c2 ++ r2 -> c1 = c2 /\ r1 = r2.
Proof.
  destruct (jsStringEscape_char_cases c1) as [[-> ->]|[[-> ->]|[[-> ->]|[[-> ->]|[S1 ->]]]]];
  destruct (jsStringEscape_char_cases c2) as [[-> ->]|[[-> ->]|[[-> ->]|[[-> ->]|[S2 ->]]]]];
  simpl; intros E; try discriminate E;
  try (injection E as E; split; [reflexivity | assumption]);
  try (injection E as E1 E2; subst; discriminate);
  try (injection E as E1 E2; subst; split; reflexivity).
Qed.

Lemma escapeHtml_char_not_empty c : escapeHtml_char c <> "".
Proof.
  destruct (escapeHtml_char_cases c) as [[_ ->]|[[_ ->]|[[_ ->]|[[_ ->]|[[_ ->]|[_ ->]]]]]];
    discriminate.
Qed.

Lemma jsStringEscape_char_not_empty c : jsStringEscape_char c <> "".
Proof.
  destruct (jsStringEscape_char_cases c) as [[_ ->]|[[_ ->]|[[_ ->]|[[_ ->]|[_ ->]]]]];
    discriminate.
Qed.

Lemma escapeHtml_inj s1 s2 : escapeHtml s1 = escapeHtml s2 -> s1 = s2.
Proof.
  apply (coded_injective escapeHtml escapeHtml_char).
  - reflexivity.
  - apply escapeHtml_cons.
  - apply escapeHtml_char_not_empty.
  - apply escapeHtml_char_prefix_free.
Qed.

Lemma escapeHtml_length s : (String.length s <= String.length (escapeHtml s))%nat.
Proof.
  induction s as [|c s IH]; [simpl; lia|].
  rewrite escapeHtml_cons, length_append. cbn [String.length].
  assert (1 <= String.length (escapeHtml_char c))%nat; [|lia].
  pose proof (escapeHtml_char_not_empty c). destruct (escapeHtml_char c); [congruence | simpl; lia].
Qed.

Lemma jsStringEscape_length s : (String.length s <= String.length (jsStringEscape s))%nat.
Proof.
  induction s as [|c s IH]; [simpl; lia|].
  rewrite jsStringEscape_cons, length_append. cbn [String.length].
  assert (1 <= String.length (jsStringEscape_char c))%nat; [|lia].
  pose proof (jsStringEscape_char_not_empty c).
  destruct (jsStringEscape_char c); [congruence | simpl; lia].
Qed.

Lemma escapeHtml_plain s : escapeHtml s = s <-> plain html_special s = true.
Proof.
  unfold plain. induction s as [|c s IH]; [simpl; tauto|].
  rewrite escapeHtml_cons. cbn [list_ascii_of_string forallb].
  rewrite andb_true_iff, <- IH.
  pose proof (escapeHtml_length s) as L.
  destruct (escapeHtml_char_cases c) as [[-> ->]|[[-> ->]|[[-> ->]|[[-> ->]|[[-> ->]|[S1 ->]]]]]];
    simpl; try rewrite S1; simpl;
    (split; [intros E | intros [E1 E2]]); try discriminate.
  - apply (f_equal String.length) in E. simpl in E. lia.
  - injection E as E. auto.
  - now rewrite E2.
Qed.

Lemma jsStringEscape_plain s : jsStringEscape s = s <-> plain js_special s = true.
Proof.
  unfold plain. induction s as [|c s IH]; [simpl; tauto|].
  rewrite jsStringEscape_cons. cbn [list_ascii_of_string forallb].
  rewrite andb_true_iff, <- IH.
  pose proof (jsStringEscape_length s) as L.
  destruct (jsStringEscape_char_cases c) as [[-> ->]|[[-> ->]|[[-> ->]|[[-> ->]|[S1 ->]]]]];
    simpl; try rewrite S1; simpl;
    (split; [intros E | intros [E1 E2]]); try discriminate.
  - apply (f_equal String.length) in E. simpl in E. lia.
  - injection E as E. auto.
  - now rewrite E2.
Qed.

Lemma list_ascii_of_string_app a b :
  list_ascii_of_string (a ++ b)
  = (list_ascii_of_string a ++ list_ascii_of_string b)%list.
Proof. induction a as [|x a IH]; simpl; [reflexivity | now rewrite IH]. Qed.

Lemma plain_app special a b :
  plain special (a ++ b) = plain special a && plain special b.
Proof. unfold plain. now rewrite list_ascii_of_string_app, forallb_app. Qed.

Lemma prefix_append a b : prefix a (a ++ b) = true.
Proof.
  induction a as [|x a IH]; simpl; [now destruct b|].
  destruct (ascii_dec x x) as [_|N]; [assumption | now elim N].
Qed.

(** The part of a text before a character that its beginning [e] does not
    hold starts with [e]. *)
Lemma split_before c e : forall p q rest,
  ~ In c (list_ascii_of_string e) ->
  p ++ String c q = e ++ rest ->
  exists p', p = e ++ p' /\ p' ++ String c q = rest.
Proof.
  induction e as [|x e IH]; intros p q rest Hn E.
  - exists p. auto.
  - destruct p as [|y p]; simpl in E; injection E as E1 E2.
    + subst x. elim Hn. simpl. auto.
    + subst y. destruct (IH p q rest) as (p' & -> & E'); [|assumption|].
      * intros H. apply Hn. simpl. auto.
      * exists p'. auto.
Qed.

Lemma html_delimiter_of_char c :
  forallb (fun a => negb (html_delimiter a)) (list_ascii_of_string (escapeHtml_char c))
  = true.
Proof.
  destruct (escapeHtml_char_cases c) as [[_ ->]|[[_ ->]|[[_ ->]|[[_ ->]|[[_ ->]|[S1 ->]]]]]];
    try reflexivity.
  cbn [list_ascii_of_string forallb]. rewrite andb_true_r.
  unfold html_special in S1. unfold html_delimiter.
  destruct (Ascii.eqb c "&"); [discriminate S1|]. simpl in S1. now rewrite S1.
Qed.


(** A digit is escaped by neither function. *)
Lemma digit_not_special c :
  is_digit c = true -> html_special c = false /\ js_special c = false.
Proof.
  unfold is_digit. intros H. apply andb_true_iff in H as [H1 H2].
  apply Nat.leb_le in H1, H2.
  unfold html_special, js_special.
  split; repeat (apply orb_false_iff; split); apply Ascii.eqb_neq; intros ->;
    cbv in H1, H2; lia.
Qed.

Lemma digits_plain n s :
  ascii_digits n s -> plain html_special s = true /\ plain js_special s = true.
Proof.
  intros [_ H]. unfold plain. induction H as [|c l Hc _ IH]; [auto|].
  cbn [forallb]. destruct (digit_not_special c Hc) as [-> ->]. exact IH.
Qed.

End Escaping.

(** ** The weighted sum of an EAN13 *)

Section WeightedSum.

Local Open Scope Z_scope.

Lemma weighted_from_app a : forall b i,
  weighted_from i (a ++ b)
  = weighted_from i a + weighted_from (i + String.length a) b.
Proof.
  induction a as [|c a IH]; intros b i; simpl.
  - now rewrite Nat.add_0_r.
  - rewrite IH. replace (i + 1 + String.length a)%nat with (i + S (String.length a))%nat by lia.
    lia.
Qed.

Lemma weight_cases i : weight i = 1 \/ weight i = 3.
Proof. unfold weight. destruct (Nat.even i); auto. Qed.

Lemma weight_next i :
  (weight i = 1 /\ weight (i + 1) = 3) \/ (weight i = 3 /\ weight (i + 1) = 1).
Proof.
  unfold weight. rewrite Nat.add_1_r, Nat.even_succ, <- Nat.negb_even.
  destruct (Nat.even i); auto.
Qed.

(** Thirteen digits are valid exactly when their weighted sum is a multiple
    of ten. *)
Lemma isValidEan13_sum v :
  ascii_digits 13 v ->
  isValidEan13 v = (weighted_from 0 v mod 10 =? 0).
Proof.
  intros H. destruct (ascii_digits_snoc 12 v H) as (d & ch & -> & Hd & Hc).
  pose proof Hd as [Hl Hf].
  rewrite isValidEan13_snoc by assumption.
  rewrite weighted_from_app, Hl. cbn [weighted_from].
  rewrite weighted_from_12 by assumption.
  change (weight (0 + 12)) with 1.
  apply is_digit_range in Hc.
  pose proof (weighted_from_nonneg d 0 Hf) as N.
  rewrite weighted_from_12 in N by assumption.
  unfold checkDigit. cbv zeta.
  set (s := checksum_sum d) in *. set (x := Z.of_nat (nat_of_ascii ch) - 48) in *.
  destruct (Z.eqb_spec (s mod 10) 0) as [E|E];
    destruct (Z.eqb_spec x 0) as [E1|E1];
    destruct (Z.eqb_spec x (10 - s mod 10)) as [E2|E2];
    destruct (Z.eqb_spec ((s + (x * 1 + 0)) mod 10) 0) as [E3|E3];
    try reflexivity; exfalso;
    revert E E1 E2 E3; Z.to_euclidean_division_equations; lia.
Qed.

Lemma digit_value_inj c1 c2 :
  Z.of_nat (nat_of_ascii c1) - 48 = Z.of_nat (nat_of_ascii c2) - 48 -> c1 = c2.
Proof.
  intros H. assert (nat_of_ascii c1 = nat_of_ascii c2) as E by lia.
  apply (f_equal ascii_of_nat) in E. now rewrite !ascii_nat_embedding in E.
Qed.

Lemma ascii_digits_app_inv n a b :
  ascii_digits n (a ++ b) ->
  Forall (fun c => is_digit c = true) (list_ascii_of_string a) /\
  Forall (fun c => is_digit c = true) (list_ascii_of_string b) /\
  (String.length a + String.length b = n)%nat.
Proof.
  intros [L F]. rewrite list_ascii_of_string_app in F. apply Forall_app in F as [Fa Fb].
  rewrite length_append in L. auto.
Qed.

Lemma ascii_digits_app_intro a b :
  Forall (fun c => is_digit c = true) (list_ascii_of_string a) ->
  Forall (fun c => is_digit c = true) (list_ascii_of_string b) ->
  ascii_digits (String.length a + String.length b) (a ++ b).
Proof.
  intros Fa Fb. split; [apply length_append|].
  rewrite list_ascii_of_string_app. apply Forall_app. auto.
Qed.

End WeightedSum.

(** ** Strings beyond their end *)

Section Bounds.

Lemma get_beyond s : forall n, (String.length s <= n)%nat -> get n s = None.
Proof.
  induction s as [|c s IH]; intros n H; [reflexivity|].
  destruct n as [|n]; simpl in *; [lia|]. apply IH. lia.
Qed.

Lemma substring_append n : forall a b,
  (n <= String.length a)%nat -> substring 0 n (a ++ b) = substring 0 n a.
Proof.
  induction n as [|n IH]; intros a b H.
  - destruct a; destruct b; reflexivity.
  - destruct a as [|c a]; simpl in *; [lia|]. rewrite IH by lia. reflexivity.
Qed.

End Bounds.

(** ** The check digit of any string *)

Section AnyString.

Lemma for_i_NaN fuel : forall s i, for_i fuel s i NaN = NaN.
Proof.
  induction fuel as [|fuel IH]; intros s i; simpl; [reflexivity|].
  destruct (i <? String.length s)%nat; [|reflexivity].
  destruct (i mod 2 =? 0)%nat; apply IH.
Qed.

Lemma Number_of_numeric c :
  numeric c = true -> exists d, (0 <= d <= 9)%Z /\ Number_of (Some c) = Num d.
Proof.
  unfold numeric, Number_of. intros H.
  destruct (is_digit c) eqn:D.
  - eexists. split; [|reflexivity]. now apply is_digit_range.
  - simpl in H. rewrite H. exists 0%Z. split; [lia | reflexivity].
Qed.

Lemma Number_of_not_numeric c : numeric c = false -> Number_of (Some c) = NaN.
Proof.
  unfold numeric, Number_of. intros H. apply orb_false_iff in H as [-> ->]. reflexivity.
Qed.

(** The loop over any characters: a sum that is not negative when each one
    converts to a number, NaN as soon as one does not. *)
Lemma for_i_any rest : forall done acc,
  (0 <= acc)%Z ->
  (forallb numeric (list_ascii_of_string rest) = true ->
   exists total, (0 <= total)%Z /\
     for_i (String.length rest) (done ++ rest) (String.length done) (Num acc) = Num total) /\
  (forallb numeric (list_ascii_of_string rest) = false ->
   for_i (String.length rest) (done ++ rest) (String.length done) (Num acc) = NaN).
Proof.
  induction rest as [|c rest IH]; intros done acc Hacc.
  - simpl. split; [eauto | discriminate].
  - cbn [String.length for_i list_ascii_of_string forallb].
    rewrite length_append. cbn [String.length].
    replace (String.length done <? String.length done + S (String.length rest))%nat
      with true by (symmetry; apply Nat.ltb_lt; lia).
    rewrite get_append_here. cbn [get].
    rewrite append_assoc_one.
    replace (String.length done + 1)%nat with (String.length (done ++ String c ""))
      by (rewrite length_append; reflexivity).
    destruct (numeric c) eqn:Nc.
    + destruct (Number_of_numeric c Nc) as (d & Rd & ->).
      rewrite mod2_weight. cbn [add andb].
      apply IH. pose proof (weight_cases (String.length done)). nia.
    + rewrite (Number_of_not_numeric c Nc). cbn [andb].
      split; [discriminate|]. intros _.
      destruct (String.length done mod 2 =? 0)%nat; cbn [mul add]; apply for_i_NaN.
Qed.

End AnyString.

(** ** Properties of the check digit *)

Section CheckDigitProperties.

Local Open Scope Z_scope.

(** X1.  Thirteen ASCII digits pass [isValidEan13] exactly when the sum of
    the thirteen digits, weighted 1 and 3 in turn from the first, is a
    multiple of ten. *)
Theorem valid_iff_weighted_sum_multiple_of_ten (v : string) :
  ascii_digits 13 v ->
  (isValidEan13 v = true <-> weighted_from 0 v mod 10 = 0).
Proof.
  intros H. rewrite isValidEan13_sum by assumption.
  split; intros E.
  - now apply Z.eqb_eq.
  - now apply Z.eqb_eq.
Qed.

Lemma valid_iff_weighted_sum_multiple_of_ten_witness :
  ascii_digits 13 "4006381333931" /\
  (isValidEan13 "4006381333931" = true <-> weighted_from 0 "4006381333931" mod 10 = 0).
Proof.
  assert (ascii_digits 13 "4006381333931") as H
    by (apply test_digits_spec; reflexivity).
  split; [exact H|].
  exact (valid_iff_weighted_sum_multiple_of_ten "4006381333931" H).
Defined.

(** X2.  A valid EAN13 in which one digit, at any of the thirteen places, is
    replaced by a different digit is no longer valid. *)
Theorem single_digit_error_detected (a b : string) (c c' : ascii) :
  ascii_digits 13 (a ++ String c b) ->
  is_digit c' = true -> c' <> c ->
  isValidEan13 (a ++ String c b) = true ->
  isValidEan13 (a ++ String c' b) = false.
Proof.
  intros H Hc' Hne V.
  destruct (ascii_digits_app_inv _ _ _ H) as (Fa & Fb & L).
  assert (ascii_digits 13 (a ++ String c' b)) as H'.
  { rewrite <- L. cbn [String.length].
    change (S (String.length b)) with (String.length (String c' b)).
    apply ascii_digits_app_intro; [assumption|].
    inversion Fb; subst. now constructor. }
  rewrite isValidEan13_sum in V |- * by assumption.
  apply Z.eqb_eq in V. apply Z.eqb_neq.
  rewrite weighted_from_app in V |- *. cbn [weighted_from] in V |- *.
  inversion Fb as [|? ? Hc _]; subst.
  apply is_digit_range in Hc, Hc'.
  assert (Z.of_nat (nat_of_ascii c') - 48 <> Z.of_nat (nat_of_ascii c) - 48) as D
    by (intros E; now apply Hne, digit_value_inj).
  set (x := Z.of_nat (nat_of_ascii c) - 48) in *.
  set (x' := Z.of_nat (nat_of_ascii c') - 48) in *.
  set (sa := weighted_from 0 a) in *.
  set (sb := weighted_from (0 + String.length a + 1) b) in *.
  destruct (weight_cases (0 + String.length a)) as [W | W]; rewrite W in *;
    revert V; Z.to_euclidean_division_equations; lia.
Qed.

Lemma single_digit_error_detected_witness :
  isValidEan13 "4006381833931" = false.
Proof.
  apply (single_digit_error_detected "4006381" "33931" "3" "8").
  - apply test_digits_spec. reflexivity.
  - reflexivity.
  - discriminate.
  - reflexivity.
Defined.

(** X3.  Exchanging two neighbouring digits of a valid EAN13 gives a valid
    EAN13 exactly when the two digits are equal or differ by five: every
    other exchange of neighbours is detected. *)
Theorem adjacent_transposition_detected_unless_five_apart
    (a b : string) (c1 c2 : ascii) :
  ascii_digits 13 (a ++ String c1 (String c2 b)) ->
  isValidEan13 (a ++ String c1 (String c2 b)) = true ->
  (isValidEan13 (a ++ String c2 (String c1 b)) = true <->
   c1 = c2 \/ Z.abs (Z.of_nat (nat_of_ascii c1) - Z.of_nat (nat_of_ascii c2)) = 5).
Proof.
  intros H V.
  destruct (ascii_digits_app_inv _ _ _ H) as (Fa & Fb & L).
  inversion Fb as [|? ? Hc1 Fb']; subst. inversion Fb' as [|? ? Hc2 Fb'']; subst.
  assert (ascii_digits 13 (a ++ String c2 (String c1 b))) as H'.
  { rewrite <- L. cbn [String.length].
    change (S (S (String.length b))) with (String.length (String c2 (String c1 b))).
    apply ascii_digits_app_intro; [assumption|]. now repeat constructor. }
  rewrite isValidEan13_sum in V |- * by assumption.
  apply Z.eqb_eq in V. rewrite Z.eqb_eq.
  rewrite weighted_from_app in V |- *. cbn [weighted_from] in V |- *.
  apply is_digit_range in Hc1, Hc2.
  assert (c1 = c2 <-> Z.of_nat (nat_of_ascii c1) - 48 = Z.of_nat (nat_of_ascii c2) - 48) as Eq
    by (split; [now intros -> | apply digit_value_inj]).
  rewrite Eq.
  replace (Z.of_nat (nat_of_ascii c1) - Z.of_nat (nat_of_ascii c2))
    with ((Z.of_nat (nat_of_ascii c1) - 48) - (Z.of_nat (nat_of_ascii c2) - 48)) by lia.
  set (x1 := Z.of_nat (nat_of_ascii c1) - 48) in *.
  set (x2 := Z.of_nat (nat_of_ascii c2) - 48) in *.
  set (sa := weighted_from 0 a) in *.
  set (sb := weighted_from (0 + String.length a + 1 + 1) b) in *.
  destruct (weight_next (0 + String.length a)) as [[W1 W2] | [W1 W2]];
    rewrite W1, W2 in *;
    revert V; Z.to_euclidean_division_equations; lia.
Qed.

Lemma adjacent_transposition_detected_unless_five_apart_witness :
  isValidEan13 "4006831333931" = true <->
  "3"%char = "8"%char \/ Z.abs (Z.of_nat (nat_of_ascii "3") - Z.of_nat (nat_of_ascii "8")) = 5.
Proof.
  apply (adjacent_transposition_detected_unless_five_apart "4006" "1333931" "3" "8").
  - apply test_digits_spec. reflexivity.
  - reflexivity.
Defined.

(** X4.  [isValidEan13] looks at the first thirteen characters only: a string
    of fewer than thirteen characters is never valid, and characters after
    the thirteenth change nothing. *)
Theorem validation_reads_thirteen_characters :
  (forall s : string, (String.length s < 13)%nat -> isValidEan13 s = false) /\
  (forall v rest : string,
      String.length v = 13%nat -> isValidEan13 (v ++ rest) = isValidEan13 v).
Proof.
  split.
  - intros s H. unfold isValidEan13. rewrite get_beyond by lia. reflexivity.
  - intros v rest H. unfold isValidEan13, slice0.
    rewrite substring_append by lia.
    rewrite <- (append_correct1 v rest 12) by lia. reflexivity.
Qed.

Lemma validation_reads_thirteen_characters_witness :
  isValidEan13 "400638133393" = false /\
  isValidEan13 ("4006381333931" ++ "7") = isValidEan13 "4006381333931".
Proof.
  split.
  - apply (proj1 validation_reads_thirteen_characters "400638133393"). simpl. lia.
  - apply (proj2 validation_reads_thirteen_characters "4006381333931" "7"). reflexivity.
Defined.

(** X5.  On any string [computeEan13CheckDigit] is a whole number from 0 to 9
    when every character is a digit or white space (white space counting as
    0), and NaN as soon as one character is neither; a string with such a
    character among its first twelve is not valid. *)
Theorem check_digit_of_any_string :
  (forall s : string,
      forallb numeric (list_ascii_of_string s) = true ->
      exists c : Z, (0 <= c <= 9) /\ computeEan13CheckDigit s = Num c) /\
  (forall s : string,
      forallb numeric (list_ascii_of_string s) = false ->
      computeEan13CheckDigit s = NaN) /\
  (forall v : string,
      forallb numeric (list_ascii_of_string (slice0 12 v)) = false ->
      isValidEan13 v = false).
Proof.
  assert (forall s, forallb numeric (list_ascii_of_string s) = false ->
                    computeEan13CheckDigit s = NaN) as N.
  { intros s H. destruct (for_i_any s "" 0 ltac:(lia)) as [_ Hnan].
    cbn [append String.length] in Hnan.
    unfold computeEan13CheckDigit. rewrite (Hnan H). reflexivity. }
  split; [|split; [exact N|]].
  - intros s H. destruct (for_i_any s "" 0 ltac:(lia)) as [Hnum _].
    cbn [append String.length] in Hnum.
    destruct (Hnum H) as (total & Pt & E).
    unfold computeEan13CheckDigit. rewrite E. cbv zeta. unfold rem.
    change (10 =? 0) with false. cbv iota.
    rewrite Z.rem_mod_nonneg by lia.
    pose proof (Z.mod_pos_bound total 10 ltac:(lia)) as B.
    unfold strict_eq. destruct (Z.eqb_spec (total mod 10) 0) as [Z0|Z0].
    + exists 0. split; [lia | reflexivity].
    + exists (10 - total mod 10). split; [lia | reflexivity].
  - intros v H. unfold isValidEan13. rewrite (N _ H).
    now destruct (Number_of (get 12 v)).
Qed.

Lemma check_digit_of_any_string_witness :
  (exists c : Z, (0 <= c <= 9) /\ computeEan13CheckDigit "40 063 813" = Num c) /\
  computeEan13CheckDigit "40063813339X" = NaN /\
  isValidEan13 "40063813339X1" = false.
Proof.
  split; [|split].
  - apply (proj1 check_digit_of_any_string "40 063 813"). reflexivity.
  - apply (proj1 (proj2 check_digit_of_any_string) "40063813339X"). reflexivity.
  - apply (proj2 (proj2 check_digit_of_any_string) "40063813339X1"). reflexivity.
Defined.

End CheckDigitProperties.

(** ** Properties of [resolveBarcodeType] *)

Section ResolveProperties.

(** X6.  A run returns null in two cases only: thirteen digits that fail the
    validation, and a string of neither twelve nor thirteen digits for which
    the quick pick is answered with neither of its two items. *)
Theorem resolve_returns_null_iff (user : User) (v : string) :
  returned (resolveBarcodeType v user) = None <->
  (ascii_digits 13 v /\ isValidEan13 v = false) \/
  (~ ascii_digits 12 v /\ ~ ascii_digits 13 v /\
   user quickPickItems <> Some 0%nat /\ user quickPickItems <> Some 1%nat).
Proof.
  destruct (test_digits 12 v) eqn:E12.
  - assert (ascii_digits 12 v) as H12 by now apply test_digits_spec.
    rewrite resolve_twelve by assumption. cbn [returned snd].
    split; [discriminate|]. intros [[H13 _]|[N _]]; [|contradiction].
    destruct H12 as [L12 _], H13 as [L13 _]. congruence.
  - assert (~ ascii_digits 12 v) as H12
      by (intros H; apply test_digits_spec in H; congruence).
    destruct (test_digits 13 v) eqn:E13.
    + assert (ascii_digits 13 v) as H13 by now apply test_digits_spec.
      rewrite resolve_thirteen by assumption.
      destruct (isValidEan13 v); cbn [returned snd].
      * split; [discriminate|]. intros [[_ F]|(_ & N & _)]; [discriminate | contradiction].
      * split; auto.
    + assert (~ ascii_digits 13 v) as H13
        by (intros H; apply test_digits_spec in H; congruence).
      rewrite resolve_otherwise by assumption. cbn [returned snd].
      destruct (user quickPickItems) as [[|[|i]]|]; split;
        try discriminate; try (intros _; right; repeat split; auto; discriminate);
        intros [[F _]|(_ & _ & A & B)]; try contradiction; congruence.
Qed.

End ResolveProperties.

(** ** What a run of [resolveBarcodeType] can return *)

Section Resolved.

Variable user : User.

Lemma resolve_cases v d :
  returned (resolveBarcodeType v user) = Some d ->
  (type d = ean13 /\ label d = "EAN13" /\
   ascii_digits 13 (value d) /\ isValidEan13 (value d) = true /\
   ((ascii_digits 13 v /\ value d = v) \/
    (ascii_digits 12 v /\ value d = v ++ to_string (Num (checkDigit v))))) \/
  (~ ascii_digits 12 v /\ ~ ascii_digits 13 v /\ value d = v /\
   ((type d = code128 /\ label d = "Code 128") \/
    (type d = qrcode /\ label d = "QR Code"))).
Proof.
  intros R.
  destruct (test_digits 12 v) eqn:E12.
  - apply test_digits_spec in E12. rewrite resolve_twelve in R by assumption.
    injection R as <-. left. cbn [type label value].
    destruct (completed_thirteen v E12) as [H13 V]. auto 10.
  - destruct (test_digits 13 v) eqn:E13.
    + apply test_digits_spec in E13. rewrite resolve_thirteen in R by assumption.
      destruct (isValidEan13 v) eqn:V; [|discriminate R].
      injection R as <-. left. cbn [type label value]. auto 10.
    + assert (~ ascii_digits 12 v) as H12
        by (intros H; apply test_digits_spec in H; congruence).
      assert (~ ascii_digits 13 v) as H13
        by (intros H; apply test_digits_spec in H; congruence).
      rewrite resolve_otherwise in R by assumption. right.
      destruct (user quickPickItems) as [[|[|i]]|]; simpl in R;
        try discriminate R; injection R as <-; cbn [type label value]; auto 10.
Qed.

Lemma resolve_calls v :
  calls (resolveBarcodeType v user) = [] \/
  calls (resolveBarcodeType v user) = [quickPickCall] \/
  calls (resolveBarcodeType v user) = [showErrorMessage invalidMessage] \/
  exists text, calls (resolveBarcodeType v user) = [showInformationMessage text].
Proof.
  destruct (test_digits 12 v) eqn:E12.
  - apply test_digits_spec in E12. rewrite resolve_twelve by assumption.
    do 3 right. eexists. reflexivity.
  - destruct (test_digits 13 v) eqn:E13.
    + apply test_digits_spec in E13. rewrite resolve_thirteen by assumption.
      destruct (isValidEan13 v); auto.
    + assert (~ ascii_digits 12 v) as H12
        by (intros H; apply test_digits_spec in H; congruence).
      assert (~ ascii_digits 13 v) as H13
        by (intros H; apply test_digits_spec in H; congruence).
      rewrite resolve_otherwise by assumption. auto.
Qed.

End Resolved.

(** ** Trimming *)

Section Trimming.

Lemma trimStart_blank a t : blank a = true -> trimStart (a ++ t) = trimStart t.
Proof.
  unfold blank. induction a as [|c a IH]; simpl; [reflexivity|].
  intros H. apply andb_true_iff in H as [-> H]. auto.
Qed.

Lemma trimEnd_of_blank b : blank b = true -> trimEnd b = "".
Proof.
  unfold blank. induction b as [|c b IH]; simpl; [reflexivity|].
  intros H. apply andb_true_iff in H as [-> H]. now rewrite IH.
Qed.

Lemma trimEnd_blank t b : blank b = true -> trimEnd (t ++ b) = trimEnd t.
Proof.
  intros H. induction t as [|c t IH]; simpl.
  - now apply trimEnd_of_blank.
  - now rewrite IH.
Qed.

Lemma trimStart_of_blank a : blank a = true -> trimStart a = "".
Proof.
  intros H. rewrite <- (append_empty_r a). now rewrite trimStart_blank.
Qed.

Lemma trim_blank_end s b : blank b = true -> trim (s ++ b) = trim s.
Proof.
  intros H. unfold trim. induction s as [|c s IH].
  - simpl. now rewrite trimStart_of_blank.
  - simpl. destruct (is_white_space c); [assumption|].
    change (String c (s ++ b)) with (String c s ++ b). now apply trimEnd_blank.
Qed.

Lemma trim_surrounded a s b :
  blank a = true -> blank b = true -> trim (a ++ s ++ b) = trim s.
Proof.
  intros Ha Hb. rewrite <- (trim_blank_end s b Hb).
  unfold trim. now rewrite trimStart_blank.
Qed.

(** What is left of a string trimmed at its start begins with a character
    that is not white space. *)
Lemma trimStart_cases s :
  (trimStart s = "" /\ blank s = true) \/
  (exists c t, trimStart s = String c t /\ is_white_space c = false /\ blank s = false).
Proof.
  unfold blank. induction s as [|c s IH]; simpl; [auto|].
  destruct (is_white_space c) eqn:W; [exact IH|].
  right. exists c, s. auto.
Qed.

Lemma trimEnd_keeps_head c t :
  is_white_space c = false -> exists u, trimEnd (String c t) = String c u.
Proof.
  intros W. simpl. rewrite W. destruct (trimEnd t); eauto.
Qed.

Lemma trim_empty s : trim s = "" <-> blank s = true.
Proof.
  unfold trim. destruct (trimStart_cases s) as [[-> B]|(c & t & -> & W & B)].
  - simpl. tauto.
  - destruct (trimEnd_keeps_head c t W) as [u ->]. rewrite B.
    split; discriminate.
Qed.

Lemma trimEnd_idempotent s : trimEnd (trimEnd s) = trimEnd s.
Proof.
  induction s as [|c s IH]; [reflexivity|]. simpl.
  destruct (trimEnd s) as [|k ks] eqn:E.
  - destruct (is_white_space c) eqn:W; [reflexivity|]. simpl. now rewrite W.
  - cbn [trimEnd] in IH |- *. cbn [trimEnd]. rewrite IH. reflexivity.
Qed.

Lemma trim_idempotent s : trim (trim s) = trim s.
Proof.
  unfold trim. destruct (trimStart_cases s) as [[-> _]|(c & t & -> & W & _)].
  - reflexivity.
  - destruct (trimEnd_keeps_head c t W) as [u E]. rewrite E.
    cbn [trimStart]. rewrite W. rewrite <- E. apply trimEnd_idempotent.
Qed.

Lemma digit_not_white_space c : is_digit c = true -> is_white_space c = false.
Proof.
  unfold is_digit, is_white_space. intros H. apply andb_true_iff in H as [H1 H2].
  apply Nat.leb_le in H1, H2. cbv zeta.
  repeat (apply orb_false_iff; split); try apply andb_false_iff;
    try (right; apply Nat.leb_gt; lia); apply Nat.eqb_neq; lia.
Qed.

Lemma trimEnd_digits s :
  Forall (fun c => is_digit c = true) (list_ascii_of_string s) -> trimEnd s = s.
Proof.
  induction s as [|c s IH]; [reflexivity|]. simpl. intros H.
  inversion H as [|? ? Hc Hs]; subst. rewrite IH by assumption.
  rewrite (digit_not_white_space c Hc). now destruct s.
Qed.

Lemma trim_digits n s : ascii_digits n s -> trim s = s.
Proof.
  intros [_ H]. unfold trim. destruct s as [|c s]; [reflexivity|].
  inversion H as [|? ? Hc Hs]; subst. cbn [trimStart].
  rewrite (digit_not_white_space c Hc). now apply trimEnd_digits.
Qed.

End Trimming.

(** ** Properties of the command *)

Section CommandProperties.

Variable user : User.

Lemma generate_resolves selected :
  blank selected = false ->
  generateFromSelection (Some selected) user
  = resolveBarcodeType (trim selected) user.
Proof.
  intros B. unfold generateFromSelection. cbv zeta.
  destruct (trim selected) as [|c t] eqn:E.
  - apply trim_empty in E. congruence.
  - cbn [String.length Nat.eqb]. unfold bind.
    destruct (resolveBarcodeType (String c t) user) as [log [d|]];
      cbn [ret]; now rewrite app_nil_r.
Qed.

Lemma generate_blank selected :
  blank selected = true ->
  generateFromSelection (Some selected) user
  = ([showErrorMessage "Please select text to generate a barcode."], None).
Proof.
  intros B. unfold generateFromSelection. cbv zeta.
  apply trim_empty in B. rewrite B. reflexivity.
Qed.

End CommandProperties.

(** X7.  The command answers "Please select text to generate a barcode."
    and stops exactly when the selection is empty or white space only; the
    user is then asked nothing and no preview is opened. *)
Theorem blank_selection_refused (user : User) (selected : string) :
  generateFromSelection (Some selected) user
  = ([showErrorMessage "Please select text to generate a barcode."], None)
  <-> blank selected = true.
Proof.
  split; [|apply generate_blank].
  intros E. destruct (blank selected) eqn:B; [reflexivity|]. exfalso.
  rewrite generate_resolves in E by assumption.
  pose proof (resolve_calls user (trim selected)) as C.
  rewrite E in C. cbn [calls fst] in C.
  destruct C as [C|[C|[C|[text C]]]]; discriminate C.
Qed.

(** X8.  White space around the selection makes no difference to what the
    command does. *)
Theorem surrounding_white_space_ignored
    (user : User) (before selected after : string) :
  blank before = true -> blank after = true ->
  generateFromSelection (Some (before ++ selected ++ after)) user
  = generateFromSelection (Some selected) user.
Proof.
  intros Hb Ha. unfold generateFromSelection. cbv zeta.
  now rewrite trim_surrounded.
Qed.

Lemma surrounding_white_space_ignored_witness :
  generateFromSelection
    (Some (String " " (String line_feed "") ++ "400638133393" ++ String line_feed ""))
    dismisses
  = generateFromSelection (Some "400638133393") dismisses.
Proof.
  apply (surrounding_white_space_ignored dismisses
           (String " " (String line_feed "")) "400638133393" (String line_feed ""));
    reflexivity.
Defined.

(** X9.  The decision the command hands to the preview comes from a
    selection that is not blank; its value is not empty and has no white
    space at either end; it is the trimmed selection for Code 128 and QR
    Code, and thirteen valid digits for EAN13. *)
Theorem preview_payload
    (user : User) (activeTextEditor : option string) (d : Decision) :
  returned (generateFromSelection activeTextEditor user) = Some d ->
  exists selected,
    activeTextEditor = Some selected /\ blank selected = false /\
    value d <> "" /\ trim (value d) = value d /\
    (type d = ean13 -> ascii_digits 13 (value d) /\ isValidEan13 (value d) = true) /\
    (type d <> ean13 -> value d = trim selected).
Proof.
  destruct activeTextEditor as [selected|]; [|discriminate].
  intros R. exists selected. split; [reflexivity|].
  destruct (blank selected) eqn:B; [now rewrite generate_blank in R|].
  split; [reflexivity|].
  rewrite generate_resolves in R by assumption.
  assert (trim selected <> "") as Ne by (intros E; apply trim_empty in E; congruence).
  destruct (resolve_cases user _ _ R) as [(T & _ & H13 & V & _)|(_ & _ & E & T)].
  - split; [|split; [|split]].
    + destruct H13 as [L _]. intros Z. rewrite Z in L. discriminate L.
    + now apply (trim_digits 13).
    + auto.
    + intros N. contradiction.
  - rewrite E. split; [assumption|]. split; [apply trim_idempotent|].
    split; [|reflexivity].
    intros T'. destruct T as [[T _]|[T _]]; congruence.
Qed.

Lemma preview_payload_witness :
  exists selected,
    Some " 40063813339 " = Some selected /\ blank selected = false /\
    "40063813339" <> "" /\ trim "40063813339" = "40063813339" /\
    (qrcode = ean13 ->
     ascii_digits 13 "40063813339" /\ isValidEan13 "40063813339" = true) /\
    (qrcode <> ean13 -> "40063813339" = trim selected).
Proof.
  apply (preview_payload always_second (Some " 40063813339 ")
           (mkDecision qrcode "40063813339" "QR Code")).
  reflexivity.
Defined.

(** ** Properties of the escaping functions *)

(** X10.  The five replacements of [escapeHtml], made one after the other
    over the whole string, amount to one pass that replaces each character
    once: no replacement is escaped again by a later one. *)
Theorem escapeHtml_one_pass (s : string) :
  escapeHtml s = flat_map_string escapeHtml_char s.
Proof.
  induction s as [|c s IH]; [reflexivity|].
  rewrite escapeHtml_cons, IH. reflexivity.
Qed.

(** X11.  The text [escapeHtml] returns holds no [<], [>], double quote or
    single quote, and each [&] in it begins one of the five character
    references it writes. *)
Theorem escapeHtml_output_safe (s : string) :
  plain html_delimiter (escapeHtml s) = true /\
  forall before after : string,
    escapeHtml s = before ++ String "&" after ->
    exists name, In name html_references /\ prefix name after = true.
Proof.
  split.
  - induction s as [|c s IH]; [reflexivity|].
    rewrite escapeHtml_cons, plain_app, IH, andb_true_r.
    apply html_delimiter_of_char.
  - induction s as [|c s IH]; intros before after E.
    + destruct before; discriminate E.
    + rewrite escapeHtml_cons in E. symmetry in E.
      assert (forall name, In name html_references ->
                escapeHtml_char c = String "&" name ->
                exists name', In name' html_references /\ prefix name' after = true) as Ref.
      { intros name Hin Ec. rewrite Ec in E. destruct before as [|b before].
        - injection E as E. exists name. split; [assumption|].
          rewrite E. apply prefix_append.
        - injection E as _ E.
          destruct (split_before "&" name before after (escapeHtml s)) as (p' & _ & E');
            [|assumption|symmetry in E'; exact (IH _ _ E')].
          simpl in Hin.
          destruct Hin as [<-|[<-|[<-|[<-|[<-|[]]]]]]; simpl; intuition discriminate. }
      destruct (escapeHtml_char_cases c)
        as [[_ Ec]|[[_ Ec]|[[_ Ec]|[[_ Ec]|[[_ Ec]|[S1 Ec]]]]]].
      * apply (Ref "amp;"); simpl; auto.
      * apply (Ref "lt;"); simpl; auto.
      * apply (Ref "gt;"); simpl; auto.
      * apply (Ref "quot;"); simpl; auto.
      * apply (Ref "#39;"); simpl; auto 6.
      * rewrite Ec in E.
        destruct (split_before "&" (String c "") before after (escapeHtml s))
          as (p' & _ & E'); [|assumption|symmetry in E'; exact (IH _ _ E')].
        simpl. intros [F|[]]. now apply (html_special_amp c).
Qed.

Lemma escapeHtml_output_safe_witness :
  exists name, In name html_references /\ prefix name "amp;b&lt;" = true.
Proof.
  apply (proj2 (escapeHtml_output_safe "a&b<") "a" "amp;b&lt;"). reflexivity.
Defined.

(** X12.  [escapeHtml] loses nothing: two different strings are escaped to
    two different texts. *)
Theorem escapeHtml_lossless (s1 s2 : string) :
  escapeHtml s1 = escapeHtml s2 -> s1 = s2.
Proof.
  apply (coded_injective escapeHtml escapeHtml_char).
  - reflexivity.
  - apply escapeHtml_cons.
  - apply escapeHtml_char_not_empty.
  - apply escapeHtml_char_prefix_free.
Qed.

Lemma escapeHtml_lossless_witness : "a<b" = "a<b".
Proof. apply (escapeHtml_lossless "a<b" "a<b"). reflexivity. Defined.

(** X13.  [escapeHtml] returns its argument unchanged exactly when the
    argument has none of the five characters, and escaping a second time
    changes the text whenever the first time changed it. *)
Theorem escapeHtml_unchanged_iff_plain (s : string) :
  (escapeHtml s = s <-> plain html_special s = true) /\
  (escapeHtml (escapeHtml s) = escapeHtml s <-> escapeHtml s = s).
Proof.
  split; [apply escapeHtml_plain|].
  split; intros E.
  - now apply escapeHtml_inj.
  - now rewrite !E.
Qed.

(** X14.  The four replacements of [jsStringEscape] amount to one pass that
    replaces each character once: the backslashes written for a quote or a
    line break are not doubled. *)
Theorem jsStringEscape_one_pass (s : string) :
  jsStringEscape s = flat_map_string jsStringEscape_char s.
Proof.
  induction s as [|c s IH]; [reflexivity|].
  rewrite jsStringEscape_cons, IH. reflexivity.
Qed.


(** X16.  [jsStringEscape] loses nothing, and returns its argument unchanged
    exactly when the argument has no backslash, single quote, line feed or
    carriage return. *)
Theorem jsStringEscape_lossless :
  (forall s1 s2 : string, jsStringEscape s1 = jsStringEscape s2 -> s1 = s2) /\
  (forall s : string, jsStringEscape s = s <-> plain js_special s = true).
Proof.
  split; [|apply jsStringEscape_plain].
  apply (coded_injective jsStringEscape jsStringEscape_char).
  - reflexivity.
  - apply jsStringEscape_cons.
  - apply jsStringEscape_char_not_empty.
  - apply jsStringEscape_char_prefix_free.
Qed.

Lemma jsStringEscape_lossless_witness : "it's" = "it's".
Proof. apply (proj1 jsStringEscape_lossless "it's" "it's"). reflexivity. Defined.

(** X17.  For every decision [resolveBarcodeType] returns, the type and the
    label are one of three pairs and [escapeHtml] leaves both unchanged; the
    value of an EAN13 decision is left unchanged by [escapeHtml] and by
    [jsStringEscape], so the preview's script holds the thirteen digits as
    they are. *)
Theorem decision_needs_no_escaping (user : User) (v : string) (d : Decision) :
  returned (resolveBarcodeType v user) = Some d ->
  In (type d, label d) [(ean13, "EAN13"); (code128, "Code 128"); (qrcode, "QR Code")] /\
  escapeHtml (type_string (type d)) = type_string (type d) /\
  escapeHtml (label d) = label d /\
  (type d = ean13 ->
   escapeHtml (value d) = value d /\ jsStringEscape (value d) = value d).
Proof.
  intros R.
  destruct (resolve_cases user v d R)
    as [(T & L & H13 & _)|(_ & _ & _ & [[T L]|[T L]])]; rewrite T, L.
  - repeat split; try reflexivity; [simpl; auto|..];
      destruct (digits_plain 13 _ H13) as [P1 P2].
    + now apply escapeHtml_plain.
    + now apply jsStringEscape_plain.
  - repeat split; try reflexivity; try discriminate. simpl; auto.
  - repeat split; try reflexivity; try discriminate. simpl; auto.
Qed.

Lemma decision_needs_no_escaping_witness :
  In (ean13, "EAN13") [(ean13, "EAN13"); (code128, "Code 128"); (qrcode, "QR Code")] /\
  escapeHtml (type_string ean13) = type_string ean13 /\
  escapeHtml "EAN13" = "EAN13" /\
  (ean13 = ean13 ->
   escapeHtml "4006381333931" = "4006381333931" /\
   jsStringEscape "4006381333931" = "4006381333931").
Proof.
  apply (decision_needs_no_escaping dismisses "400638133393"
           (mkDecision ean13 "4006381333931" "EAN13")).
  reflexivity.
Defined.

(** ** Properties of the message handler *)

Lemma remove_prefix_spec p : forall s rest,
  remove_prefix p s = Some rest <-> s = p ++ rest.
Proof.
  induction p as [|a p IH]; intros s rest; simpl.
  - split; [now intros [= ->] | now intros ->].
  - destruct s as [|b s]; [split; discriminate|].
    destruct (Ascii.eqb_spec a b) as [->|N].
    + rewrite IH. split; [now intros -> | now intros [= ->]].
    + split; [discriminate | intros [= E _]; congruence].
Qed.

Lemma startsWith_spec p s :
  startsWith p s = true <-> exists rest, s = p ++ rest.
Proof.
  unfold startsWith. revert s. induction p as [|a p IH]; intros s.
  - destruct s; simpl; split; eauto.
  - destruct s as [|b s]; simpl.
    + split; [discriminate | intros [rest E]; discriminate E].
    + destruct (ascii_dec a b) as [->|N].
      * rewrite IH. split; intros [rest E]; exists rest; [now rewrite E | now injection E].
      * split; [discriminate | intros [rest E]; injection E as E _; congruence].
Qed.

(** X18.  The handler calls [exportPdfFromPngDataUrl] only for a message of
    type 'export-pdf' whose dataUrl is a string that begins with
    'data:image/png;base64,', without any call on the window before; the text
    [dataUrlToBytes] then decodes is that string after this beginning. *)
Theorem export_only_png_data_url
    (user : User) (message : option Message) (log : list WindowCall) (dataUrl : string) :
  onDidReceiveMessage message user = (log, Some dataUrl) ->
  log = [] /\
  (exists m, message = Some m /\
             message_type m = js_string "export-pdf" /\
             message_dataUrl m = js_string dataUrl) /\
  dataUrl = pngDataUrlPrefix ++ dataUrlToBytes_base64 dataUrl.
Proof.
  unfold onDidReceiveMessage. destruct message as [m|]; [|discriminate].
  destruct (message_type m) as [|t|] eqn:T; cbn [strict_eq_string]; try discriminate.
  destruct (String.eqb_spec t "export-pdf") as [->|N]; [|discriminate].
  destruct (message_dataUrl m) as [|u|] eqn:U; try discriminate.
  destruct (startsWith pngDataUrlPrefix u) eqn:P; cbn [negb]; [|discriminate].
  intros [= <- <-]. split; [reflexivity|]. split; [eauto|].
  apply startsWith_spec in P as [rest E].
  unfold dataUrlToBytes_base64.
  rewrite (proj2 (remove_prefix_spec pngDataUrlPrefix u rest) E). exact E.
Qed.

Lemma export_only_png_data_url_witness :
  ([] : list WindowCall) = [] /\
  (exists m, Some (mkMessage (js_string "export-pdf") (js_string "data:image/png;base64,iVBORw0KGgo=")) = Some m /\
             message_type m = js_string "export-pdf" /\
             message_dataUrl m = js_string "data:image/png;base64,iVBORw0KGgo=") /\
  "data:image/png;base64,iVBORw0KGgo="
  = pngDataUrlPrefix ++ dataUrlToBytes_base64 "data:image/png;base64,iVBORw0KGgo=".
Proof.
  apply (export_only_png_data_url dismisses
           (Some (mkMessage (js_string "export-pdf")
                            (js_string "data:image/png;base64,iVBORw0KGgo=")))
           [] "data:image/png;base64,iVBORw0KGgo=").
  reflexivity.
Defined.

(** ** Images that fit the page *)

Section FittingImages.

Local Open Scope R_scope.

(** Rounding to nearest is never below the value cut at 53 bits. *)
Lemma binary_round_aux_not_below sx mx ex lx :
  let d := Z.pos (digits2_pos mx) in
  (53 <= d)%Z -> (-1074 <= d + ex - 53)%Z -> (d + ex - 52 <= 971)%Z ->
  exists m e,
    binary_round_aux prec emax sx (Z.pos mx) ex lx = S754_finite sx m e /\
    Z.pos (digits2_pos m) = 53%Z /\
    IZR (Z.pos mx / 2 ^ (d - 53)) * bpow (d + ex - 53) <= IZR (Z.pos m) * bpow e.
Proof.
  intros d Hd Hlo Hhi. unfold binary_round_aux.
  destruct (shr_fexp_spec mx ex lx Hd Hlo) as [E1 M1]. fold d in E1, M1.
  destruct (shr_fexp prec emax (Z.pos mx) ex lx) as [mrs' e'].
  cbn [fst snd] in E1, M1.
  pose proof (digits2_pos_spec mx) as Dm. fold d in Dm.
  pose proof (top_bits (Z.pos mx) d Hd Dm) as T1. rewrite <- M1 in T1.
  set (r := round_nearest_even (shr_m mrs') (loc_of_shr_record mrs')).
  pose proof (round_nearest_even_spec (shr_m mrs') (loc_of_shr_record mrs')) as Rr.
  fold r in Rr.
  destruct r as [|rp|rp] eqn:Er; try lia.
  assert (2 ^ 52 <= Z.pos rp < 2 ^ 54)%Z as Brp.
  { change (2 ^ 53)%Z with 9007199254740992%Z in T1.
    change (2 ^ 54)%Z with 18014398509481984%Z. lia. }
  pose proof (digits_53_54 rp Brp) as Hd2.
  set (d2 := Z.pos (digits2_pos rp)) in *.
  destruct (shr_fexp_spec rp e' loc_Exact) as [E2 M2]; fold d2; try lia.
  fold d2 in E2, M2.
  destruct (shr_fexp prec emax (Z.pos rp) e' loc_Exact) as [mrs'' e''].
  cbn [fst snd] in E2, M2.
  pose proof (digits2_pos_spec rp) as D2. fold d2 in D2.
  pose proof (top_bits (Z.pos rp) d2 ltac:(lia) D2) as T2. rewrite <- M2 in T2.
  destruct (shr_m mrs'') as [|m|m] eqn:Em; try lia.
  replace (e'' <=? emax - prec)%Z with true
    by (symmetry; apply Z.leb_le; unfold emax, prec; lia).
  exists m, e''. split; [reflexivity|].
  split; [now apply digits2_pos_unique|].
  rewrite <- M1, <- E1.
  set (u := bpow e'). assert (0 < u) as Pu by apply bpow_pos.
  assert (IZR (shr_m mrs') <= IZR (Z.pos rp)) as F2 by (apply IZR_le; lia).
  assert (d2 = 53 \/ d2 = 54)%Z as [C|C] by lia.
  - assert (Z.pos m = Z.pos rp) as ->
      by (rewrite M2, C; change (2 ^ (53 - 53))%Z with 1%Z; now rewrite Z.div_1_r).
    replace e'' with e' by lia. fold u. nra.
  - assert (bpow e'' = 2 * u) as ->.
    { replace e'' with (e' + 1)%Z by lia. rewrite bpow_add, bpow_1. unfold u. lra. }
    assert (Z.pos rp = 9007199254740992)%Z as Erp.
    { rewrite C in D2. change (2 ^ (54 - 1))%Z with 9007199254740992%Z in D2.
      change (2 ^ 53)%Z with 9007199254740992%Z in T1. lia. }
    assert (Z.pos m = 4503599627370496)%Z as Em'.
    { rewrite M2, C, Erp. reflexivity. }
    rewrite Em'. rewrite Erp in F2. nra.
Qed.

(** A quotient by a number that is not larger is at least 1. *)
Lemma div_not_below_one x y mx ex my ey :
  normal_pos x mx ex -> normal_pos y my ey ->
  (-1074 <= ex - ey - 53)%Z -> (ex - ey - 51 <= 971)%Z ->
  F2R y <= F2R x ->
  exists m e, normal_pos (x / y) m e /\ 1 <= F2R (x / y).
Proof.
  intros Hx Hy Hlo Hhi Le.
  pose proof (normal_pos_mantissa _ _ _ Hx) as Bx.
  pose proof (normal_pos_mantissa _ _ _ Hy) as By.
  rewrite (normal_pos_F2R _ _ _ Hx), (normal_pos_F2R _ _ _ Hy) in Le.
  destruct Hx as [Ex Dx], Hy as [Ey Dy].
  set (e' := (ex - ey - 53)%Z).
  set (q := (Z.pos mx * 2 ^ 53 / Z.pos my)%Z).
  assert (SFdiv_core_binary prec emax (Z.pos mx) ex (Z.pos my) ey
          = (q, e', new_location (Z.pos my) (Z.pos mx * 2 ^ 53 mod Z.pos my))) as Core.
  { unfold SFdiv_core_binary. cbn [Zdigits2]. rewrite Dx, Dy.
    replace (53 + ex - (53 + ey))%Z with (ex - ey)%Z by lia.
    rewrite fexp_normal by lia.
    replace (Z.min (ex - ey - 53) (ex - ey)) with e' by (unfold e'; lia).
    replace (ex - ey - e')%Z with 53%Z by (unfold e'; lia).
    cbv zeta. rewrite Z.shiftl_mul_pow2 by lia.
    unfold q, Z.div, Z.modulo.
    destruct (Z.div_eucl (Z.pos mx * 2 ^ 53) (Z.pos my)); reflexivity. }
  assert (Prim2SF (x / y) =
          binary_round_aux prec emax false q e'
            (new_location (Z.pos my) (Z.pos mx * 2 ^ 53 mod Z.pos my))) as E.
  { rewrite FloatAxioms.div_spec. unfold SF64div, SFdiv. rewrite Ex, Ey, Core. reflexivity. }
  pose proof (Z.div_mod (Z.pos mx * 2 ^ 53) (Z.pos my) ltac:(lia)) as Dv. fold q in Dv.
  pose proof (Z.mod_pos_bound (Z.pos mx * 2 ^ 53) (Z.pos my) ltac:(lia)) as Bm.
  change (2 ^ 53)%Z with 9007199254740992%Z in *.
  assert (2 ^ 52 <= q < 2 ^ 54)%Z as Bq.
  { change (2 ^ 52)%Z with 4503599627370496%Z.
    change (2 ^ 54)%Z with 18014398509481984%Z. nia. }
  destruct q as [|qp|qp] eqn:Eq; try (change (2 ^ 52)%Z with 4503599627370496%Z in Bq; lia).
  pose proof (digits_53_54 qp Bq) as Hd.
  destruct (binary_round_aux_not_below false qp e'
              (new_location (Z.pos my) (Z.pos mx * 9007199254740992 mod Z.pos my)))
    as (m & e & Er & Dm & Ve); try (unfold e'; lia).
  rewrite Er in E.
  exists m, e. split; [split; assumption|].
  unfold F2R. rewrite E.
  replace (1 * (IZR (Z.pos m) * bpow e)) with (IZR (Z.pos m) * bpow e) by lra.
  apply Rle_trans with (2 := Ve).
  set (k := (Z.pos (digits2_pos qp) - 53)%Z) in *.
  assert (0 <= k <= 1)%Z as Hk by (unfold k; lia).
  pose proof (pow2_pos k ltac:(lia)) as Pk.
  replace (Z.pos (digits2_pos qp) + e' - 53)%Z with (e' + k)%Z by (unfold k; lia).
  pose proof (top_bits (Z.pos qp) (Z.pos (digits2_pos qp)) ltac:(lia) (digits2_pos_spec qp))
    as Top. fold k in Top.
  destruct (Z_lt_le_dec (e' + k) 0) as [Neg|Pos].
  - (* the quotient has bits below the unit *)
    set (j := (- (e' + k))%Z).
    assert (0 < j)%Z as Hj by (unfold j; lia).
    pose proof (pow2_pos j ltac:(lia)) as Pj.
    assert (Z.pos my * 2 ^ (j + k) <= Z.pos mx * 9007199254740992)%Z as Int.
    { apply le_IZR. rewrite !mult_IZR.
      rewrite <- (bpow_IZR (j + k)) by lia.
      assert (bpow ex = bpow (- (j + k)) * 9007199254740992 * bpow ey) as Eex.
      { replace ex with (- (j + k) + 53 + ey)%Z at 1 by (unfold j, e'; lia).
        rewrite !bpow_add. rewrite (bpow_IZR 53) by lia. reflexivity. }
      rewrite Eex in Le.
      pose proof (bpow_pos ey) as Py. pose proof (bpow_pos (j + k)) as Pjk.
      assert (bpow (- (j + k)) * bpow (j + k) = 1) as Inv.
      { rewrite <- bpow_add. replace (- (j + k) + (j + k))%Z with 0%Z by lia. reflexivity. }
      assert (IZR (Z.pos my) <= IZR (Z.pos mx) * (bpow (- (j + k)) * 9007199254740992)) as Le'.
      { apply (Rmult_le_reg_r (bpow ey)); [assumption|]. lra. }
      apply (Rmult_le_compat_r (bpow (j + k))) in Le'; [|lra].
      replace (IZR (Z.pos mx) * (bpow (- (j + k)) * 9007199254740992) * bpow (j + k))
        with (IZR (Z.pos mx) * 9007199254740992 * (bpow (- (j + k)) * bpow (j + k)))
        in Le' by ring.
      rewrite Inv in Le'. lra. }
    assert (2 ^ (j + k) <= Z.pos qp)%Z as Q1.
    { rewrite <- Eq. unfold q. apply Z.div_le_lower_bound; lia. }
    assert (2 ^ j <= Z.pos qp / 2 ^ k)%Z as Q2.
    { apply Z.div_le_lower_bound; [lia|].
      rewrite <- Z.pow_add_r by lia. now rewrite Z.add_comm. }
    apply IZR_le in Q2. rewrite <- (bpow_IZR j) in Q2 by lia.
    assert (bpow j * bpow (e' + k) = 1) as Inv.
    { rewrite <- bpow_add. replace (j + (e' + k))%Z with 0%Z by (unfold j; lia). reflexivity. }
    pose proof (bpow_pos (e' + k)). nra.
  - pose proof (bpow_ge_1 (e' + k) Pos).
    assert (1 <= IZR (Z.pos qp / 2 ^ k)).
    { apply IZR_le. change (2 ^ 52)%Z with 4503599627370496%Z in Top. lia. }
    nra.
Qed.

(** Positive normal numbers of the same value are the same number. *)
Lemma normal_pos_same x y mx ex my ey :
  normal_pos x mx ex -> normal_pos y my ey -> F2R x = F2R y -> x = y.
Proof.
  intros Hx Hy E.
  pose proof (normal_pos_mantissa _ _ _ Hx) as Bx.
  pose proof (normal_pos_mantissa _ _ _ Hy) as By.
  rewrite (normal_pos_F2R _ _ _ Hx), (normal_pos_F2R _ _ _ Hy) in E.
  destruct Hx as [Ex _], Hy as [Ey _].
  apply Prim2SF_inj. rewrite Ex, Ey.
  assert (ex = ey) as ->.
  { destruct (Z.lt_trichotomy ex ey) as [L|[?|G]]; [exfalso|assumption|exfalso].
    - pose proof (value_lt_exponent mx ex my ey Bx By L). lra.
    - pose proof (value_lt_exponent my ey mx ex By Bx G). lra. }
  pose proof (bpow_pos ey) as P.
  assert (IZR (Z.pos mx) = IZR (Z.pos my)) as Em by nra.
  apply eq_IZR in Em. now injection Em as ->.
Qed.

(** A positive normal number times 1 is that number. *)
Lemma mul_one x mx ex :
  normal_pos x mx ex -> (-1022 <= ex <= 900)%Z -> (x * 1)%float = x.
Proof.
  intros Hx Re.
  destruct (mul_correct x 1 mx ex _ _ Hx one_normal) as (m & e & Nm & _ & _); try lia.
  apply (normal_pos_same _ _ _ _ _ _ Nm Hx).
  apply Rle_antisym.
  - apply (mul_below x 1%float mx ex _ _ Hx one_normal); try lia. rewrite F2R_one. lra.
  - pose proof (normal_pos_mantissa _ _ _ Hx) as Bx.
    rewrite (normal_pos_F2R _ _ _ Hx).
    destruct Hx as [Ex Dx]. destruct one_normal as [E1 _].
    assert (Prim2SF (x * 1) =
            binary_round_aux prec emax false (Z.pos (mx * 4503599627370496)) (ex + -52)
              loc_Exact) as E
      by (rewrite FloatAxioms.mul_spec; unfold SF64mul; rewrite Ex, E1; reflexivity).
    assert (Z.pos (digits2_pos (mx * 4503599627370496)) = 105%Z) as Dp.
    { apply digits2_pos_unique. rewrite Pos2Z.inj_mul.
      change (2 ^ (105 - 1))%Z with (4503599627370496 * 4503599627370496)%Z.
      change (2 ^ 105)%Z with (9007199254740992 * 4503599627370496)%Z. nia. }
    destruct (binary_round_aux_not_below false (mx * 4503599627370496) (ex + -52) loc_Exact)
      as (m' & e' & Er & _ & Ve); rewrite ?Dp; try lia.
    rewrite Dp in Ve. unfold F2R. rewrite E, Er.
    replace (1 * (IZR (Z.pos m') * bpow e')) with (IZR (Z.pos m') * bpow e') by lra.
    apply Rle_trans with (2 := Ve).
    replace (105 + (ex + -52) - 53)%Z with ex by lia.
    change (2 ^ (105 - 53))%Z with 4503599627370496%Z.
    rewrite Pos2Z.inj_mul, Z.div_mul by lia. lra.
Qed.

(** [Math.min] of two numbers that are at least 1 and 1 is 1. *)
Lemma min_one_of_larger a b ma ea mb eb :
  normal_pos a ma ea -> normal_pos b mb eb ->
  1 <= F2R a -> 1 <= F2R b ->
  Math.min [a; b; 1%float] = 1%float.
Proof.
  intros Ha Hb La Lb. unfold Math.min. cbn [existsb].
  rewrite (normal_pos_not_nan _ _ _ Ha), (normal_pos_not_nan _ _ _ Hb).
  rewrite (normal_pos_not_nan _ _ _ one_normal). cbn [orb fold_left].
  rewrite (min_step_normal infinity a ma ea Ha), (normal_pos_below_infinity a ma ea Ha).
  rewrite (min_step_normal a b mb eb Hb).
  assert (forall l ml el, normal_pos l ml el -> 1 <= F2R l ->
            Math.min_step l 1%float = 1%float) as Step.
  { intros l ml el Hl Ll.
    rewrite (min_step_normal l 1%float _ _ one_normal).
    destruct (1 <? l)%float eqn:C; [reflexivity|].
    apply (ltb_false _ _ _ _ _ _ one_normal Hl) in C. rewrite F2R_one in C.
    apply (normal_pos_same _ _ _ _ _ _ Hl one_normal). rewrite F2R_one. lra. }
  destruct (b <? a)%float.
  - now apply (Step b mb eb).
  - now apply (Step a ma ea).
Qed.

(** A float comparison of positive normal numbers, read in real numbers. *)
Lemma leb_true x y mx ex my ey :
  normal_pos x mx ex -> normal_pos y my ey ->
  (x <=? y)%float = true -> F2R x <= F2R y.
Proof.
  intros Hx Hy. pose proof (compare_normal x y mx ex my ey Hx Hy) as C.
  rewrite FloatAxioms.leb_spec. unfold SFleb.
  destruct (SFcompare (Prim2SF x) (Prim2SF y)) as [[| |]|]; try discriminate;
    intros _; lra.
Qed.

Lemma scale_of_fitting (w h : float) :
  (1 <=? w)%float = true -> (w <=? maxWidth)%float = true ->
  (1 <=? h)%float = true -> (h <=? maxHeight)%float = true ->
  scale w h = 1%float /\ (w * 1)%float = w /\ (h * 1)%float = h.
Proof.
  intros W1 W2 H1 H2.
  destruct (between_normal _ _ w _ _ _ _ one_normal maxWidth_normal ltac:(lia) W1 W2)
    as (mw & ew & Nw & Rw).
  destruct (between_normal _ _ h _ _ _ _ one_normal maxHeight_normal ltac:(lia) H1 H2)
    as (mh & eh & Nh & Rh).
  pose proof (leb_true _ _ _ _ _ _ Nw maxWidth_normal W2) as Lw.
  pose proof (leb_true _ _ _ _ _ _ Nh maxHeight_normal H2) as Lh.
  destruct (div_not_below_one maxWidth w _ _ _ _ maxWidth_normal Nw)
    as (ma & ea & Na & La); try lia; try assumption.
  destruct (div_not_below_one maxHeight h _ _ _ _ maxHeight_normal Nh)
    as (mb & eb & Nb & Lb); try lia; try assumption.
  split; [|split].
  - unfold scale. now apply (min_one_of_larger _ _ _ _ _ _ Na Nb).
  - apply (mul_one w mw ew Nw). lia.
  - apply (mul_one h mh eh Nh). lia.
Qed.

(** *** Images larger than the printable area *)

Lemma bpow_m43 : bpow (-43) * 8796093022208 = 1.
Proof. unfold bpow. simpl. lra. Qed.

Lemma normal_524 : normal_pos 524%float 4609152743636992 (-43).
Proof. split; vm_compute; reflexivity. Qed.

Lemma normal_770 : normal_pos 770%float 6772991627100160 (-43).
Proof. split; vm_compute; reflexivity. Qed.

(** A quotient of a smaller number by a larger one, rounded. *)
Lemma quotient_below maxSize d mm md ed limit :
  normal_pos maxSize mm (-43) -> normal_pos d md ed -> (-52 <= ed <= -22)%Z ->
  F2R maxSize * 100000 <= 99990 * limit -> limit <= F2R d ->
  F2R (maxSize / d)%float * 100000 <= 99995.
Proof.
  intros Nm Nd Rd Small Large.
  destruct (div_correct maxSize d _ _ _ _ Nm Nd) as (ma & ea & Na & Ra & Va); try lia.
  apply relative_bounds in Va. destruct Va as [_ Va].
  destruct unit_roundoff as [Pu Eu]. set (u := bpow (-51)) in *.
  assert (u <= / 1000000) as Su.
  { apply (Rmult_le_reg_r 2251799813685248); [lra|]. rewrite Eu. lra. }
  pose proof (normal_pos_positive _ _ _ Nm) as Pm.
  pose proof (normal_pos_positive _ _ _ Nd) as Pd.
  assert (F2R maxSize / F2R d <= 99990 / 100000) as Q.
  { apply Rdiv_upper; [assumption|]. lra. }
  assert (0 < F2R maxSize / F2R d) as Pq by (apply Rdiv_lt_0_compat; assumption).
  nra.
Qed.

Lemma scale_of_oversized (w h : float) :
  (1 <=? w)%float = true -> (w <=? 2147483647)%float = true ->
  (1 <=? h)%float = true -> (h <=? 2147483647)%float = true ->
  (524 <=? w)%float = true \/ (770 <=? h)%float = true ->
  F2R (scale w h) < 1 /\
  F2R (w * scale w h) < F2R w /\ F2R (h * scale w h) < F2R h.
Proof.
  intros W1 W2 H1 H2 Over.
  destruct (between_normal _ _ w _ _ _ _ one_normal largest_normal ltac:(lia) W1 W2)
    as (mw & ew & Nw & Rw).
  destruct (between_normal _ _ h _ _ _ _ one_normal largest_normal ltac:(lia) H1 H2)
    as (mh & eh & Nh & Rh).
  destruct (div_correct maxWidth w _ _ _ _ maxWidth_normal Nw)
    as (ma & ea & Na & Ra & _); try lia.
  destruct (div_correct maxHeight h _ _ _ _ maxHeight_normal Nh)
    as (mb & eb & Nb & Rb & _); try lia.
  destruct (min_one_normal _ _ _ _ _ _ Na Nb) as (ms & es & Ns & Es & Sa & Sb & S1).
  fold (scale w h) in Ns, Sa, Sb, S1.
  assert (F2R (scale w h) * 100000 <= 99995) as Small.
  { destruct Over as [O|O].
    - pose proof (leb_true _ _ _ _ _ _ normal_524 Nw O) as L.
      pose proof (quotient_below maxWidth w _ _ _ (F2R 524%float) maxWidth_normal Nw Rw) as Q.
      rewrite (normal_pos_F2R _ _ _ normal_524) in L, Q.
      rewrite (normal_pos_F2R _ _ _ maxWidth_normal) in Q at 1.
      pose proof bpow_m43. pose proof (bpow_pos (-43)).
      assert (F2R (maxWidth / w)%float * 100000 <= 99995) by (apply Q; nra). lra.
    - pose proof (leb_true _ _ _ _ _ _ normal_770 Nh O) as L.
      pose proof (quotient_below maxHeight h _ _ _ (F2R 770%float) maxHeight_normal Nh Rh) as Q.
      rewrite (normal_pos_F2R _ _ _ normal_770) in L, Q.
      rewrite (normal_pos_F2R _ _ _ maxHeight_normal) in Q at 1.
      pose proof bpow_m43. pose proof (bpow_pos (-43)).
      assert (F2R (maxHeight / h)%float * 100000 <= 99995) by (apply Q; nra). lra. }
  destruct unit_roundoff as [Pu Eu]. set (u := bpow (-51)) in *.
  assert (u <= / 1000000) as Su.
  { apply (Rmult_le_reg_r 2251799813685248); [lra|]. rewrite Eu. lra. }
  pose proof (normal_pos_positive _ _ _ Ns) as Ps.
  assert (forall d md ed, normal_pos d md ed -> (-52 <= ed <= -22)%Z ->
            F2R (d * scale w h) < F2R d) as Axis.
  { intros d md ed Nd Rd.
    destruct (mul_correct d (scale w h) _ _ _ _ Nd Ns) as (mz & ez & _ & _ & Vz); try lia.
    apply relative_bounds in Vz. destruct Vz as [_ Vz]. fold u in Vz.
    pose proof (normal_pos_positive _ _ _ Nd) as Pd.
    assert (0 < F2R d * F2R (scale w h)) by nra. nra. }
  split; [lra|]. split; [now apply (Axis w mw ew) | now apply (Axis h mh eh)].
Qed.

End FittingImages.

(** X19.  An image that fits the printable area, from 1 by 1 to 523.28 by
    769.89, is not scaled: the scale is exactly 1 and the image is drawn with
    its own width and height, centered on the page. *)
Theorem fitting_image_drawn_at_its_size (w h : float) :
  (1 <=? w)%float = true -> (w <=? maxWidth)%float = true ->
  (1 <=? h)%float = true -> (h <=? maxHeight)%float = true ->
  scale w h = 1%float /\
  exportPdfFromPngDataUrl_layout w h
  = Normal (mkPageLayout ((a4Width - w) / 2) ((a4Height - h) / 2) w h).
Proof.
  intros W1 W2 H1 H2.
  destruct (scale_of_fitting w h W1 W2 H1 H2) as (S & Ew & Eh).
  split; [exact S|].
  unfold exportPdfFromPngDataUrl_layout. cbv zeta. now rewrite S, Ew, Eh.
Qed.

Lemma fitting_image_drawn_at_its_size_witness :
  scale 280 280 = 1%float /\
  exportPdfFromPngDataUrl_layout 280 280
  = Normal (mkPageLayout ((a4Width - 280) / 2) ((a4Height - 280) / 2) 280 280).
Proof.
  apply (fitting_image_drawn_at_its_size 280 280); reflexivity.
Defined.

(** X20.  An image of pixel dimensions that is at least 524 wide or at least
    770 high, so larger than the printable area, is reduced: the scale is
    below 1 and the width and the height drawn are below those of the
    image. *)
Theorem oversized_image_reduced (w h : float) :
  (1 <=? w)%float = true -> (w <=? 2147483647)%float = true ->
  (1 <=? h)%float = true -> (h <=? 2147483647)%float = true ->
  (524 <=? w)%float = true \/ (770 <=? h)%float = true ->
  exists l,
    exportPdfFromPngDataUrl_layout w h = Normal l /\
    (F2R (scale w h) < 1)%R /\
    (F2R (drawWidth l) < F2R w)%R /\ (F2R (drawHeight l) < F2R h)%R.
Proof.
  intros W1 W2 H1 H2 Over.
  destruct (scale_of_oversized w h W1 W2 H1 H2 Over) as (S & Dw & Dh).
  eexists. split; [reflexivity|]. cbn [drawWidth drawHeight]. auto.
Qed.

Lemma oversized_image_reduced_witness :
  exists l,
    exportPdfFromPngDataUrl_layout 640 180 = Normal l /\
    (F2R (scale 640 180) < 1)%R /\
    (F2R (drawWidth l) < F2R 640)%R /\ (F2R (drawHeight l) < F2R 180)%R.
Proof.
  apply (oversized_image_reduced 640 180); try reflexivity.
  left. reflexivity.
Defined.

